(** * The AIDL front end's declaration model (aidl_language.h)

    A shallow embedding of the AST node classes declared in
    [aidl_language.h].  Each C++ class is a module holding a record of the
    class's data members (base-class members first) and its member
    functions.  The member functions the header defines inline are
    translated from their bodies.  Those it only declares have their
    bodies in other files; where a property below needs one, it is
    modelled from the specification's description of it, and the
    definition says so.

    Conventions:
    - [std::string] is [string]; [unsigned int] is [N]; [int] is [Z];
    - a [std::vector] is a [list] in element order;
    - an owning pointer that may be null ([unique_ptr]) is an [option];
    - a non-owning raw pointer is an address ([nat]) into an explicit
      store, or an index into the vector that owns the pointee;
    - dereferencing a null or dangling pointer, and signed overflow, have
      no defined result: the embedding returns [None] there. *)

From stdpp Require Import base option list strings gmap pretty.
From Stdlib Require Import Ascii ZArith Lia.

Set Warnings "-register-all".

Local Open Scope string_scope.

(** [std::endl] writes a line feed (and flushes, which leaves no trace in
    the stream contents). *)
Definition endl : string := String (Ascii.ascii_of_nat 10) EmptyString.

(** ** AidlLocation, AidlNode *)

Module AidlLocation.

Record Point := { line : N; column : N }.

Record t := {
  file_ : string;
  begin_ : Point;
  end_ : Point
}.

(** For tests. *)
Definition nowhere : t :=
  {| file_ := "nowhere";
     begin_ := {| line := 0; column := 0 |};
     end_ := {| line := 0; column := 0 |} |}.

End AidlLocation.

Module AidlNode.

Record t := { location_ : AidlLocation.t }.

Definition GetLine (n : t) : N :=
  AidlLocation.line (AidlLocation.begin_ (location_ n)).

End AidlNode.

(** ** AidlAnnotation, AidlAnnotatable *)

Module AidlAnnotation.

Record t := {
  node : AidlNode.t;
  name_ : string
}.

Definition GetName (a : t) : string := name_ a.
Definition ToString (a : t) : string := "@" ++ name_ a.

End AidlAnnotation.

(** ** AidlTypeSpecifier *)

Module AidlTypeSpecifier.

(** Data members, the [AidlAnnotatable] base first.  [type_params_] is a
    possibly-null owning pointer to the vector of the parameter
    specifiers; [language_type_] is an opaque pointer attached by a
    backend.  The representation [params] of that vector is left open:
    a list of specifiers when a specifier is held by value together with
    what it owns ([owned] below), a list of addresses when specifiers are
    objects in a store and the parser points to them ([object] below). *)
Record t (params : Type) := Build {
  node : AidlNode.t;
  annotations_ : list AidlAnnotation.t;
  unresolved_name_ : string;
  fully_qualified_name_ : string;
  is_array_ : bool;
  type_params_ : option params;
  comments_ : string;
  language_type_ : option nat
}.

Arguments Build {params}.
Arguments node {params}.
Arguments annotations_ {params}.
Arguments unresolved_name_ {params}.
Arguments fully_qualified_name_ {params}.
Arguments is_array_ {params}.
Arguments type_params_ {params}.
Arguments comments_ {params}.
Arguments language_type_ {params}.

Inductive owned := Owned (members : t (list owned)).

Definition members (o : owned) : t (list owned) :=
  match o with Owned m => m end.

Abbreviation object := (t (list nat)).

Section Members.

Context {params : Type}.

Definition Annotate (annotations : list AidlAnnotation.t) (ts : t params)
  : t params :=
  Build (node ts) annotations (unresolved_name_ ts)
        (fully_qualified_name_ ts) (is_array_ ts) (type_params_ ts)
        (comments_ ts) (language_type_ ts).

Definition GetUnresolvedName (ts : t params) : string := unresolved_name_ ts.

Definition GetComments (ts : t params) : string := comments_ ts.

(** [fully_qualified_name_] differs from the empty string. *)
Definition IsResolved (ts : t params) : bool :=
  negb (String.eqb (fully_qualified_name_ ts) EmptyString).

Definition GetName (ts : t params) : string :=
  if IsResolved ts then fully_qualified_name_ ts
  else GetUnresolvedName ts.

Definition IsArray (ts : t params) : bool := is_array_ ts.

(** [type_params_ != nullptr] *)
Definition IsGeneric (ts : t params) : bool :=
  match type_params_ ts with
  | Some _ => true
  | None => false
  end.

(** [return *type_params_;] -- dereferences the pointer without a test,
    so there is no result when it is null. *)
Definition GetTypeParameters (ts : t params) : option params :=
  match type_params_ ts with
  | Some type_params => Some type_params
  | None => None
  end.

Definition SetLanguageType (language_type : option nat) (ts : t params)
  : t params :=
  Build (node ts) (annotations_ ts) (unresolved_name_ ts)
        (fully_qualified_name_ ts) (is_array_ ts) (type_params_ ts)
        (comments_ ts) language_type.

Definition GetLanguageType (ts : t params) : option nat := language_type_ ts.

(** The symbol table [android::aidl::AidlTypenames] is declared in
    [aidl_typenames.h], outside this header.  All that [Resolve] asks of it
    is the lookup of a base name as written, answering the canonical name
    when the name is known; the lookup is a parameter [ResolveTypename]. *)
Variable ResolveTypename : string -> option string.

(** Modelled from the spec: the body of [AidlTypeSpecifier::Resolve], which
    the header only declares.  "Look up the unresolved base name; on
    success, store the canonical fully-qualified name and return success;
    on failure, leave unresolved and return failure.  Array-ness and
    generic parameters do not participate in name lookup; generic
    parameters are resolved independently."  The result is the returned
    flag and the specifier after the call. *)
Definition Resolve (ts : t params) : bool * t params :=
  match ResolveTypename (unresolved_name_ ts) with
  | Some canonical =>
      (true,
       Build (node ts) (annotations_ ts) (unresolved_name_ ts) canonical
             (is_array_ ts) (type_params_ ts) (comments_ ts)
             (language_type_ ts))
  | None => (false, ts)
  end.

End Members.

End AidlTypeSpecifier.


(** ** AidlConstantValue *)

Module AidlConstantValue.

Inductive Type_ := ERROR | INTEGER | STRING.

Record t := {
  node : AidlNode.t;
  type_ : Type_;
  value_ : string
}.

Definition GetType (v : t) : Type_ := type_ v.

(** Value of one hexadecimal digit, [None] for any other character. *)
Definition hex_digit_value (c : Ascii.ascii) : option N :=
  let n := Ascii.N_of_ascii c in
  if (48 <=? n)%N && (n <=? 57)%N then Some (n - 48)%N
  else if (97 <=? n)%N && (n <=? 102)%N then Some (n - 87)%N
  else if (65 <=? n)%N && (n <=? 70)%N then Some (n - 55)%N
  else None.

(** Reads a run of hexadecimal digits, most significant first, on top of
    the value [acc] read so far; [None] at the first foreign character. *)
Fixpoint parse_hex_digits (acc : N) (digits : string) : option N :=
  match digits with
  | EmptyString => Some acc
  | String c rest =>
      match hex_digit_value c with
      | Some d => parse_hex_digits (16 * acc + d)%N rest
      | None => None
      end
  end.

(** What follows [prefix] in [text], [None] when [text] does not start
    with [prefix]. *)
Fixpoint strip_prefix (prefix text : string) : option string :=
  match prefix with
  | EmptyString => Some text
  | String a prefix' =>
      match text with
      | String b text' =>
          if Ascii.eqb a b then strip_prefix prefix' text' else None
      | EmptyString => None
      end
  end.

(** The value a wider integer has once converted to [int32_t], the type
    of [LiteralInt]'s parameter: the integer of that type congruent to it
    modulo 2^32. *)
Definition to_int32 (z : Z) : Z := ((z + 2 ^ 31) mod 2 ^ 32 - 2 ^ 31)%Z.

Definition INT32_MAX : Z := 2147483647.

(** Modelled from the spec: the factory [LiteralInt], which the header
    only declares, with the parameter [const int32_t value].
    "[LiteralInt(value)] always succeeds with kind=Integer."  The payload
    is the decimal rendering of the value the parameter holds, which is
    the argument converted to [int32_t]. *)
Definition LiteralInt (location : AidlLocation.t) (value : Z) : t :=
  {| node := {| AidlNode.location_ := location |};
     type_ := INTEGER;
     value_ := pretty (to_int32 value) |}.

(** Modelled from the spec: the value a factory makes of malformed text,
    "kind=Error"; it has no payload. *)
Definition Error (location : AidlLocation.t) : t :=
  {| node := {| AidlNode.location_ := location |};
     type_ := ERROR;
     value_ := EmptyString |}.

Section ParseHex.

(** The spec does not say what [ParseHex] makes of a well-formed literal
    whose value is beyond [INT32_MAX] and so is not a value of the
    [int32_t] an Integer is made from: the result on such a literal is a
    parameter, given the location and the literal's value. *)
Variable too_wide : AidlLocation.t -> N -> t.

(** Modelled from the spec: the factory [ParseHex], which the header only
    declares.  "[ParseHex(text)] validates a [0x]-prefixed hexadecimal
    literal, kind=Error on malformed text"; the header's example is 0x4f.
    At least one digit must follow the prefix.  A literal whose value is
    an [int32_t] becomes the Integer of that value. *)
Definition ParseHex (location : AidlLocation.t) (value : string) : t :=
  match strip_prefix "0x" value with
  | Some (String c rest) =>
      match parse_hex_digits 0 (String c rest) with
      | Some n =>
          if (Z.of_N n <=? INT32_MAX)%Z
          then LiteralInt location (Z.of_N n)
          else too_wide location n
      | None => Error location
      end
  | _ => Error location
  end.

End ParseHex.

(** The literal syntax read off the spec's words, apart from the parser:
    a hexadecimal digit is one of the sixteen digit characters in either
    letter case and stands for its position among them; a digit string
    stands for the number it writes in base sixteen; a hexadecimal
    literal is [0x] followed by at least one digit. *)
Definition lower_digits : list Ascii.ascii :=
  String.list_ascii_of_string "0123456789abcdef".
Definition upper_digits : list Ascii.ascii :=
  String.list_ascii_of_string "0123456789ABCDEF".

Fixpoint position (c : Ascii.ascii) (table : list Ascii.ascii) : option nat :=
  match table with
  | [] => None
  | d :: rest => if Ascii.eqb c d then Some 0 else S <$> position c rest
  end.

Definition digit_of (c : Ascii.ascii) : option nat :=
  match position c lower_digits with
  | Some d => Some d
  | None => position c upper_digits
  end.

Inductive hex_number : string -> N -> Prop :=
| hex_number_one c d :
    digit_of c = Some d ->
    hex_number (String c EmptyString) (N.of_nat d)
| hex_number_cons c d rest n :
    digit_of c = Some d ->
    hex_number rest n ->
    hex_number (String c rest)
               (N.of_nat d * 16 ^ N.of_nat (String.length rest) + n).

Inductive hex_literal : string -> N -> Prop :=
| hex_literal_intro digits n :
    hex_number digits n -> hex_literal ("0x" ++ digits) n.

End AidlConstantValue.

(** ** AidlVariableDeclaration, AidlArgument *)

Module AidlVariableDeclaration.

Record t := {
  node : AidlNode.t;
  type_ : AidlTypeSpecifier.owned;
  name_ : string;
  default_value_ : option AidlConstantValue.t
}.

Definition GetName (v : t) : string := name_ v.
Definition GetType (v : t) : AidlTypeSpecifier.owned := type_ v.
Definition GetDefaultValue (v : t) : option AidlConstantValue.t :=
  default_value_ v.

(** [GetMutableType()] hands out a pointer to the owned specifier, through
    which a caller can change it; [set_type] is the declaration after such
    a change. *)
Definition set_type (type : AidlTypeSpecifier.owned) (v : t) : t :=
  {| node := node v;
     type_ := type;
     name_ := name_ v;
     default_value_ := default_value_ v |}.

End AidlVariableDeclaration.

Module AidlArgument.

(** [enum Direction { IN_DIR = 1, OUT_DIR = 2, INOUT_DIR = 3 }] *)
Inductive Direction := IN_DIR | OUT_DIR | INOUT_DIR.

Definition Direction_value (d : Direction) : Z :=
  match d with
  | IN_DIR => 1
  | OUT_DIR => 2
  | INOUT_DIR => 3
  end.

Record t := {
  var : AidlVariableDeclaration.t;
  direction_ : Direction;
  direction_specified_ : bool
}.

Definition GetDirection (a : t) : Direction := direction_ a.

(** [direction_ & OUT_DIR], converted to [bool]: true when non-zero. *)
Definition IsOut (a : t) : bool :=
  negb (Z.land (Direction_value (direction_ a)) (Direction_value OUT_DIR)
        =? 0)%Z.

(** [direction_ & IN_DIR], converted to [bool]. *)
Definition IsIn (a : t) : bool :=
  negb (Z.land (Direction_value (direction_ a)) (Direction_value IN_DIR)
        =? 0)%Z.

Definition DirectionWasSpecified (a : t) : bool := direction_specified_ a.

(** The argument after a change of its type through [GetMutableType()]. *)
Definition set_type (type : AidlTypeSpecifier.owned) (a : t) : t :=
  {| var := AidlVariableDeclaration.set_type type (var a);
     direction_ := direction_ a;
     direction_specified_ := direction_specified_ a |}.

End AidlArgument.

(** ** AidlMethod *)

Module AidlMethod.

(** [in_arguments_] and [out_arguments_] hold [const AidlArgument*]
    pointing into the owned vector [arguments_]; such a pointer is the
    index of its pointee in [arguments_]. *)
Record t := {
  node : AidlNode.t;
  oneway_ : bool;
  comments_ : string;
  type_ : AidlTypeSpecifier.owned;
  name_ : string;
  arguments_ : list AidlArgument.t;
  in_arguments_ : list nat;
  out_arguments_ : list nat;
  has_id_ : bool;
  id_ : Z
}.

(** Modelled from the spec: the loop of the constructor, "scanning the
    owned argument list in order and testing each argument's direction
    bitmask".  One pass over the arguments from position [i] on, appending
    the pointer of each argument to the views it belongs to. *)
Fixpoint scan_arguments (i : nat) (args : list AidlArgument.t)
    (ins outs : list nat) : list nat * list nat :=
  match args with
  | [] => (ins, outs)
  | a :: rest =>
      scan_arguments (S i) rest
        (if AidlArgument.IsIn a then ins ++ [i] else ins)
        (if AidlArgument.IsOut a then outs ++ [i] else outs)
  end.

(** Modelled from the spec: the constructor of [AidlMethod] that takes an
    explicit id, which the header only declares.  "[Method] computes its
    in/out argument views once, at construction, by scanning the owned
    argument list in order and testing each argument's direction bitmask;
    an INOUT argument appears (by reference, not by duplicated ownership)
    in both views." *)
Definition make_with_id (location : AidlLocation.t) (oneway : bool)
    (type : AidlTypeSpecifier.owned) (name : string)
    (args : list AidlArgument.t) (comments : string) (id : Z) : t :=
  let views := scan_arguments 0 args [] [] in
  {| node := {| AidlNode.location_ := location |};
     oneway_ := oneway;
     comments_ := comments;
     type_ := type;
     name_ := name;
     arguments_ := args;
     in_arguments_ := fst views;
     out_arguments_ := snd views;
     has_id_ := true;
     id_ := id |}.

(** Modelled from the spec: the constructor of [AidlMethod] without an
    id, which the header only declares.  "Explicit transaction ids are
    optional; when absent, numbering is assigned by a later, external
    pass": the views are computed as above, [has_id_] is false and [id_]
    is a placeholder until [SetId]. *)
Definition make (location : AidlLocation.t) (oneway : bool)
    (type : AidlTypeSpecifier.owned) (name : string)
    (args : list AidlArgument.t) (comments : string) : t :=
  let m := make_with_id location oneway type name args comments 0 in
  {| node := node m;
     oneway_ := oneway_ m;
     comments_ := comments_ m;
     type_ := type_ m;
     name_ := name_ m;
     arguments_ := arguments_ m;
     in_arguments_ := in_arguments_ m;
     out_arguments_ := out_arguments_ m;
     has_id_ := false;
     id_ := id_ m |}.

Definition GetComments (m : t) : string := comments_ m.
Definition GetType (m : t) : AidlTypeSpecifier.owned := type_ m.
Definition IsOneway (m : t) : bool := oneway_ m.
Definition GetName (m : t) : string := name_ m.
Definition HasId (m : t) : bool := has_id_ m.
Definition GetId (m : t) : Z := id_ m.

(** [void SetId(unsigned id) { id_ = id; }]: the [unsigned] argument is
    converted to [int], which wraps values from 2^31 up. *)
Definition SetId (id : Z) (m : t) : t :=
  {| node := node m;
     oneway_ := oneway_ m;
     comments_ := comments_ m;
     type_ := type_ m;
     name_ := name_ m;
     arguments_ := arguments_ m;
     in_arguments_ := in_arguments_ m;
     out_arguments_ := out_arguments_ m;
     has_id_ := has_id_ m;
     id_ := if (id <? 2 ^ 31)%Z then id else (id - 2 ^ 32)%Z |}.

Definition GetArguments (m : t) : list AidlArgument.t := arguments_ m.
Definition GetInArguments (m : t) : list nat := in_arguments_ m.
Definition GetOutArguments (m : t) : list nat := out_arguments_ m.

(** The argument a view's pointer points to. *)
Definition deref (m : t) (p : nat) : option AidlArgument.t :=
  arguments_ m !! p.

(** The positions, among the [count] positions from [from] on, of the
    arguments of the vector [all] that pass [test], in increasing order. *)
Definition selected (test : AidlArgument.t -> bool)
    (all : list AidlArgument.t) (from count : nat) : list nat :=
  List.filter (fun p => from_option test false (all !! p)) (seq from count).

(** The method after a change of its return type through
    [GetMutableType()], and after a change of the type of its argument
    number [i] through the pointer [GetArguments()[i]] ([arguments_] is a
    constant vector, the arguments it points to are not constant). *)
Definition set_type (type : AidlTypeSpecifier.owned) (m : t) : t :=
  {| node := node m;
     oneway_ := oneway_ m;
     comments_ := comments_ m;
     type_ := type;
     name_ := name_ m;
     arguments_ := arguments_ m;
     in_arguments_ := in_arguments_ m;
     out_arguments_ := out_arguments_ m;
     has_id_ := has_id_ m;
     id_ := id_ m |}.

Definition set_argument_type (i : nat) (type : AidlTypeSpecifier.owned)
    (m : t) : t :=
  {| node := node m;
     oneway_ := oneway_ m;
     comments_ := comments_ m;
     type_ := type_ m;
     name_ := name_ m;
     arguments_ := alter (AidlArgument.set_type type) i (arguments_ m);
     in_arguments_ := in_arguments_ m;
     out_arguments_ := out_arguments_ m;
     has_id_ := has_id_ m;
     id_ := id_ m |}.

(** The methods a program can hold: made by one of the two constructors
    and then changed by the means the header gives, which are [SetId] and
    the pointers to the owned type specifiers. *)
Inductive constructed : t -> Prop :=
| constructed_make location oneway type name args comments :
    constructed (make location oneway type name args comments)
| constructed_make_with_id location oneway type name args comments id :
    constructed (make_with_id location oneway type name args comments id)
| constructed_SetId id m :
    constructed m -> constructed (SetId id m)
| constructed_set_type type m :
    constructed m -> constructed (set_type type m)
| constructed_set_argument_type i type m :
    constructed m -> constructed (set_argument_type i type m).

End AidlMethod.

(** ** AidlConstantDeclaration *)

Module AidlConstantDeclaration.

Record t := {
  node : AidlNode.t;
  type_ : AidlTypeSpecifier.owned;
  name_ : string;
  value_ : AidlConstantValue.t
}.

Definition GetType (c : t) : AidlTypeSpecifier.owned := type_ c.
Definition GetName (c : t) : string := name_ c.
Definition GetValue (c : t) : AidlConstantValue.t := value_ c.

End AidlConstantDeclaration.

(** ** AidlQualifiedName *)

Module AidlQualifiedName.

Record t := {
  node : AidlNode.t;
  terms_ : list string;
  comments_ : string
}.

Definition GetTerms (q : t) : list string := terms_ q.
Definition GetComments (q : t) : string := comments_ q.

(** [android::base::Join(terms_, sep)] puts [sep] between consecutive
    terms, which is [String.concat]. *)
Definition GetDotName (q : t) : string := String.concat "." (terms_ q).
Definition GetColonName (q : t) : string := String.concat "::" (terms_ q).

End AidlQualifiedName.

(** ** AidlDefinedType and its subclasses *)

Module AidlDefinedType.

(** Data members of the base class, [AidlAnnotatable]'s first. *)
Record base := {
  node : AidlNode.t;
  annotations_ : list AidlAnnotation.t;
  name_ : string;
  comments_ : string;
  language_type_ : option nat;
  package_ : list string
}.

(** Members added by [AidlParcelable], [AidlStructuredParcelable] and
    [AidlInterface]. *)
Record parcelable_members := {
  qualified_name_ : AidlQualifiedName.t;
  cpp_header_ : string
}.

Record structured_members := {
  variables_ : list AidlVariableDeclaration.t
}.

Record interface_members := {
  oneway_ : bool;
  methods_ : list AidlMethod.t;
  constants_ : list AidlConstantDeclaration.t
}.

(** [AidlDefinedType] is abstract; an object is of one of the three
    concrete classes, a structured parcelable containing its
    [AidlParcelable] sub-object. *)
Inductive t :=
| Parcelable (b : base) (p : parcelable_members)
| StructuredParcelable (b : base) (p : parcelable_members)
    (s : structured_members)
| Interface (b : base) (i : interface_members).

Definition base_of (d : t) : base :=
  match d with
  | Parcelable b _ => b
  | StructuredParcelable b _ _ => b
  | Interface b _ => b
  end.

Definition with_base (d : t) (b : base) : t :=
  match d with
  | Parcelable _ p => Parcelable b p
  | StructuredParcelable _ p s => StructuredParcelable b p s
  | Interface _ i => Interface b i
  end.

(** *** Virtual dispatch *)

Inductive class :=
| AidlDefinedType_ | AidlParcelable_ | AidlStructuredParcelable_
| AidlInterface_.

(** A class followed by its base classes, most derived first. *)
Definition lineage (c : class) : list class :=
  match c with
  | AidlDefinedType_ => [AidlDefinedType_]
  | AidlParcelable_ => [AidlParcelable_; AidlDefinedType_]
  | AidlStructuredParcelable_ =>
      [AidlStructuredParcelable_; AidlParcelable_; AidlDefinedType_]
  | AidlInterface_ => [AidlInterface_; AidlDefinedType_]
  end.

Inductive downcast :=
| AsStructuredParcelable_ | AsParcelable_ | AsInterface_.

(** The body a class itself declares for a downcast, if it declares one:
    [true] for [return this;], [false] for [return nullptr;]. *)
Definition declares (c : class) (f : downcast) : option bool :=
  match c, f with
  | AidlDefinedType_, _ => Some false
  | AidlParcelable_, AsParcelable_ => Some true
  | AidlStructuredParcelable_, AsStructuredParcelable_ => Some true
  | AidlInterface_, AsInterface_ => Some true
  | _, _ => None
  end.

(** The final overrider: the first declaration met going up the lineage. *)
Fixpoint final_overrider (cs : list class) (f : downcast) : bool :=
  match cs with
  | [] => false
  | c :: bases =>
      match declares c f with
      | Some body => body
      | None => final_overrider bases f
      end
  end.

Definition dynamic_class (d : t) : class :=
  match d with
  | Parcelable _ _ => AidlParcelable_
  | StructuredParcelable _ _ _ => AidlStructuredParcelable_
  | Interface _ _ => AidlInterface_
  end.

(** A virtual call of downcast [f] on [d]: [this] or [nullptr]. *)
Definition call (f : downcast) (d : t) : option t :=
  if final_overrider (lineage (dynamic_class d)) f then Some d else None.

Definition AsStructuredParcelable : t -> option t :=
  call AsStructuredParcelable_.
Definition AsParcelable : t -> option t := call AsParcelable_.
Definition AsInterface : t -> option t := call AsInterface_.

Definition AsUnstructuredParcelable (d : t) : option t :=
  match AsStructuredParcelable d with
  | Some _ => None
  | None => AsParcelable d
  end.

(** *** Accessors and mutators of the base class *)

Definition GetName (d : t) : string := name_ (base_of d).
Definition GetComments (d : t) : string := comments_ (base_of d).
Definition GetSplitPackage (d : t) : list string := package_ (base_of d).

(** Modelled from the spec: [GetPackage], which the header only declares
    (with the comment "dot joined package"): the "package segments
    dot-joined". *)
Definition GetPackage (d : t) : string :=
  String.concat "." (package_ (base_of d)).

(** Modelled from the spec: [GetCanonicalName], which the header only
    declares.  "[GetCanonicalName()] = package segments dot-joined,
    followed by [.], followed by the local name." *)
Definition GetCanonicalName (d : t) : string :=
  GetPackage d ++ "." ++ GetName d.

Definition Annotate (annotations : list AidlAnnotation.t) (d : t) : t :=
  let b := base_of d in
  with_base d
    {| node := node b;
       annotations_ := annotations;
       name_ := name_ b;
       comments_ := comments_ b;
       language_type_ := language_type_ b;
       package_ := package_ b |}.

Definition SetLanguageType (language_type : option nat) (d : t) : t :=
  let b := base_of d in
  with_base d
    {| node := node b;
       annotations_ := annotations_ b;
       name_ := name_ b;
       comments_ := comments_ b;
       language_type_ := language_type;
       package_ := package_ b |}.

Definition GetLanguageType (d : t) : option nat :=
  language_type_ (base_of d).

(** [GetMethods()], [GetConstantDeclarations()] and [GetFields()] return
    constant vectors of pointers to objects that are not constant: through
    them a caller can change a method, a constant declaration or a field
    in place.  [f] stands for any such change of element number [k]. *)
Definition alter_method (k : nat) (f : AidlMethod.t -> AidlMethod.t)
    (d : t) : t :=
  match d with
  | Interface b i =>
      Interface b {| oneway_ := oneway_ i;
                     methods_ := alter f k (methods_ i);
                     constants_ := constants_ i |}
  | _ => d
  end.

Definition alter_constant (k : nat)
    (f : AidlConstantDeclaration.t -> AidlConstantDeclaration.t)
    (d : t) : t :=
  match d with
  | Interface b i =>
      Interface b {| oneway_ := oneway_ i;
                     methods_ := methods_ i;
                     constants_ := alter f k (constants_ i) |}
  | _ => d
  end.

Definition alter_field (k : nat)
    (f : AidlVariableDeclaration.t -> AidlVariableDeclaration.t)
    (d : t) : t :=
  match d with
  | StructuredParcelable b p s =>
      StructuredParcelable b p {| variables_ := alter f k (variables_ s) |}
  | _ => d
  end.

(** One operation on a defined type that changes it: a call of one of the
    two non-const member functions (the subclasses declare none), or a
    change of an owned member in place. *)
Inductive step : t -> t -> Prop :=
| step_Annotate annotations d : step d (Annotate annotations d)
| step_SetLanguageType language_type d :
    step d (SetLanguageType language_type d)
| step_method k f d : step d (alter_method k f d)
| step_constant k f d : step d (alter_constant k f d)
| step_field k f d : step d (alter_field k f d).

(** Any number of such calls. *)
Inductive steps : t -> t -> Prop :=
| steps_refl d : steps d d
| steps_step d1 d2 d3 : step d1 d2 -> steps d2 d3 -> steps d1 d3.

Definition GetPreprocessDeclarationName (d : t) : string :=
  match d with
  | Parcelable _ _ => "parcelable"
  | StructuredParcelable _ _ _ => "structured_parcelable"
  | Interface _ _ => "interface"
  end.

End AidlDefinedType.

(** ** AidlDocument *)

Module AidlDocument.

(** [defined_types_] is a vector of owning pointers.  What matters to
    ownership is the identity of each held object, so a slot holds the
    address of the object it owns, or nothing when it is null. *)
Record t := { defined_types_ : list (option nat) }.

Definition empty : t := {| defined_types_ := [] |}.

Definition GetDefinedTypes (doc : t) : list (option nat) :=
  defined_types_ doc.

(** [defined_types_.push_back(unique_ptr<AidlDefinedType>(defined_type))];
    a null argument is pushed as a null owner. *)
Definition AddDefinedType (defined_type : option nat) (doc : t) : t :=
  {| defined_types_ := (defined_types_ doc ++ [defined_type])%list |}.

(** Every held object has one owning slot. *)
Definition unique_owners (doc : t) : Prop :=
  forall i j p,
    defined_types_ doc !! i = Some (Some p) ->
    defined_types_ doc !! j = Some (Some p) -> i = j.

Section Release.

(** The header declares [ReleaseDefinedType()] without a body, and the
    spec does not say which of the held types one call hands out: the
    slot a call releases is a parameter. *)
Variable released_slot : list (option nat) -> nat.

(** Modelled from the spec: the body of [AidlDocument::ReleaseDefinedType].
    "[ReleaseDefinedType] transfers ownership out (single transfer,
    subsequent reads from the old owner are invalid)", "move-out
    semantics": the caller receives the object the slot owned and the slot
    is left owning nothing; with nothing to release the caller receives
    null and the document is unchanged. *)
Definition ReleaseDefinedType (doc : t) : option nat * t :=
  let i := released_slot (defined_types_ doc) in
  match defined_types_ doc !! i with
  | Some (Some p) =>
      (Some p, {| defined_types_ := <[i := None]> (defined_types_ doc) |})
  | _ => (None, doc)
  end.

End Release.

End AidlDocument.

(** ** AidlImport *)

Module AidlImport.

Record t := {
  node : AidlNode.t;
  filename_ : string;
  needed_class_ : string;
  imported_doc_ : option AidlDocument.t
}.

Definition GetFilename (i : t) : string := filename_ i.
Definition GetNeededClass (i : t) : string := needed_class_ i.
Definition GetAidlDocument (i : t) : option AidlDocument.t := imported_doc_ i.

Definition SetFilename (filename : string) (i : t) : t :=
  {| node := node i;
     filename_ := filename;
     needed_class_ := needed_class_ i;
     imported_doc_ := imported_doc_ i |}.

Definition SetAidlDocument (doc : option AidlDocument.t) (i : t) : t :=
  {| node := node i;
     filename_ := filename_ i;
     needed_class_ := needed_class_ i;
     imported_doc_ := doc |}.

End AidlImport.

(** ** Parser *)

Module Parser.

(** The data members the inline member functions touch.  [error_] is an
    [int]; [unresolved_typespecs_] holds non-owning pointers, addresses
    into the store of type specifiers below.  The lexer handles
    ([scanner_], [buffer_], [raw_buffer_]) and [io_delegate_] are opaque
    to this header and left out. *)
Record t := {
  error_ : Z;
  filename_ : string;
  package_ : option AidlQualifiedName.t;
  document_ : option AidlDocument.t;
  imports_ : list AidlImport.t;
  unresolved_typespecs_ : list nat
}.

Definition INT_MAX : Z := 2147483647.

(** [error_++]; incrementing [INT_MAX] has no defined result. *)
Definition AddError (p : t) : option t :=
  if (error_ p <? INT_MAX)%Z then
    Some {| error_ := error_ p + 1;
            filename_ := filename_ p;
            package_ := package_ p;
            document_ := document_ p;
            imports_ := imports_ p;
            unresolved_typespecs_ := unresolved_typespecs_ p |}
  else None.

Definition FileName (p : t) : string := filename_ p.

Definition SetDocument (doc : option AidlDocument.t) (p : t) : t :=
  {| error_ := error_ p;
     filename_ := filename_ p;
     package_ := package_ p;
     document_ := doc;
     imports_ := imports_ p;
     unresolved_typespecs_ := unresolved_typespecs_ p |}.

Definition SetPackage (name : option AidlQualifiedName.t) (p : t) : t :=
  {| error_ := error_ p;
     filename_ := filename_ p;
     package_ := name;
     document_ := document_ p;
     imports_ := imports_ p;
     unresolved_typespecs_ := unresolved_typespecs_ p |}.

Definition GetDocument (p : t) : option AidlDocument.t := document_ p.

(** [document_.release()] *)
Definition ReleaseDocument (p : t) : option AidlDocument.t * t :=
  (document_ p, SetDocument None p).

Definition GetImports (p : t) : list AidlImport.t := imports_ p.

Definition set_imports (imports : list AidlImport.t) (p : t) : t :=
  {| error_ := error_ p;
     filename_ := filename_ p;
     package_ := package_ p;
     document_ := document_ p;
     imports_ := imports;
     unresolved_typespecs_ := unresolved_typespecs_ p |}.

Section ReleaseImports.

(** A vector that has been moved from is valid but its contents are not
    specified; what is left in it is a parameter. *)
Variable moved_from : list AidlImport.t -> list AidlImport.t.

(** [*ret = std::move(imports_); imports_.clear();] -- the result is the
    parser and what [*ret] holds after the call; what [*ret] held before
    is overwritten.  [ret] points to a vector of the caller's: [imports_]
    is private and [GetImports] returns it as a constant. *)
Definition ReleaseImports (p : t) (ret : list AidlImport.t)
  : t * list AidlImport.t :=
  let ret' := imports_ p in
  let p1 := set_imports (moved_from (imports_ p)) p in
  let p2 := set_imports [] p1 in
  (p2, ret').

End ReleaseImports.

(** [unresolved_typespecs_.emplace_back(typespec)] *)
Definition DeferResolution (typespec : nat) (p : t) : t :=
  {| error_ := error_ p;
     filename_ := filename_ p;
     package_ := package_ p;
     document_ := document_ p;
     imports_ := imports_ p;
     unresolved_typespecs_ := (unresolved_typespecs_ p ++ [typespec])%list |}.

(** The type specifiers of the unit as objects, by address, each referring
    to its parameter specifiers by their addresses; and the log of the
    calls of [AidlTypeSpecifier::Resolve] by the address each was made on
    (the log is an observer: nothing reads it). *)
Record store := {
  typespecs : gmap nat AidlTypeSpecifier.object;
  resolve_calls : list nat
}.

Section Resolve.

Variable ResolveTypename : string -> option string.

(** Modelled from the spec: one step of [Parser::Resolve], "calling each
    specifier's [Resolve] against the now-complete symbol table".  The
    call goes through the pointer [typespec] and changes the object it
    points to; there is no result when it points to no specifier. *)
Definition Resolve_at (typespec : nat) (st : store) : option (bool * store) :=
  match typespecs st !! typespec with
  | Some ts =>
      let (ok, ts') := AidlTypeSpecifier.Resolve ResolveTypename ts in
      Some (ok,
            {| typespecs := <[typespec := ts']> (typespecs st);
               resolve_calls := (resolve_calls st ++ [typespec])%list |})
  | None => None
  end.

(** Modelled from the spec: the loop of [Parser::Resolve] over the
    specifiers still [pending], [success] telling whether all calls so far
    succeeded.  "Iterates the deferred list in registration order;
    aggregates a single success/failure result -- any single failure fails
    the whole unit." *)
Fixpoint Resolve_from (pending : list nat) (success : bool) (st : store)
  : option (bool * store) :=
  match pending with
  | [] => Some (success, st)
  | typespec :: rest =>
      match Resolve_at typespec st with
      | Some (ok, st') => Resolve_from rest (if ok then success else false) st'
      | None => None
      end
  end.

(** Modelled from the spec: [Parser::Resolve], which the header only
    declares: the loop above over [unresolved_typespecs_], starting from
    success. *)
Definition Resolve (p : t) (st : store) : option (bool * store) :=
  Resolve_from (unresolved_typespecs_ p) true st.

End Resolve.

End Parser.

(** ** AidlError *)

Module AidlError.

(** A diagnostic runs in a process that has an output stream, bound to
    [os_], and a parser.  A computation either returns, or the process is
    terminated by [abort()] in the state reached. *)
Record state := {
  os : string;
  parser : Parser.t
}.

Inductive outcome (A : Type) :=
| Returned (a : A) (s : state)
| Aborted (s : state).

Arguments Returned {A} a s.
Arguments Aborted {A} s.

Definition M (A : Type) : Type := state -> outcome A.

#[global] Instance ret : MRet M := fun A a s => Returned a s.

(** Nothing runs after [abort()]. *)
#[global] Instance bind : MBind M := fun A B k m s =>
  match m s with
  | Returned a s' => k a s'
  | Aborted s' => Aborted s'
  end.

(** [os_ << text] *)
Definition put (text : string) : M unit :=
  fun s => Returned tt {| os := os s ++ text; parser := parser s |}.

Definition abort {A} : M A := fun s => Aborted s.

(** Modelled from the spec: [operator<<] for [AidlLocation], which the
    header only declares.  The spec gives the context prefix of a located
    diagnostic as "<file>:<line>:<col>: ", of which the constructor writes
    the final colon and space; line and column are those of the begin
    point, in decimal. *)
Definition put_location (l : AidlLocation.t) : M unit :=
  put (AidlLocation.file_ l ++ ":"
       ++ pretty (AidlLocation.line (AidlLocation.begin_ l)) ++ ":"
       ++ pretty (AidlLocation.column (AidlLocation.begin_ l))).

(** The object: [os_] is the stream of the state. *)
Record t := { fatal_ : bool }.

(** The private constructor. *)
Definition make (fatal : bool) : M t :=
  put "ERROR: " ;; mret {| fatal_ := fatal |}.

Definition make_filename (fatal : bool) (filename : string) : M t :=
  e ← make fatal; put filename ;; put ": " ;; mret e.

Definition make_location (fatal : bool) (location : AidlLocation.t) : M t :=
  e ← make fatal; put_location location ;; put ": " ;; mret e.

(** The constructors from [const AidlNode&] and from [const AidlNode*]
    (given a pointer that points to [node]). *)
Definition make_node (fatal : bool) (node : AidlNode.t) : M t :=
  make_location fatal (AidlNode.location_ node).

(** [~AidlError()] *)
Definition destroy (e : t) : M unit :=
  put endl ;; if fatal_ e then abort else mret tt.

(** What a diagnostic is given as its context. *)
Inductive context :=
| Filename (filename : string)
| Location (location : AidlLocation.t)
| Node (node : AidlNode.t).

Definition make_context (fatal : bool) (c : context) : M t :=
  match c with
  | Filename filename => make_filename fatal filename
  | Location location => make_location fatal location
  | Node node => make_node fatal node
  end.

Fixpoint put_all (message : list string) : M unit :=
  match message with
  | [] => mret tt
  | text :: rest => put text ;; put_all rest
  end.

(** A full expression [AidlError(fatal, os, context).os_ << m1 << ... ;]:
    the temporary is constructed, the message pieces are streamed, and the
    temporary is destroyed at the end of the expression. *)
Definition report (fatal : bool) (c : context) (message : list string)
  : M unit :=
  e ← make_context fatal c; put_all message ;; destroy e.

Definition AIDL_ERROR := report false.
Definition AIDL_FATAL := report true.

(** The text written before the message. *)
Definition context_prefix (c : context) : string :=
  match c with
  | Filename filename => filename ++ ": "
  | Location l | Node {| AidlNode.location_ := l |} =>
      AidlLocation.file_ l ++ ":"
      ++ pretty (AidlLocation.line (AidlLocation.begin_ l)) ++ ":"
      ++ pretty (AidlLocation.column (AidlLocation.begin_ l)) ++ ": "
  end.

End AidlError.

(** ** Sample declarations

    [interface IFoo { int f(in int a, out int[] b, inout Bar c); }] in
    package [a.b], and a few other objects the examples below run on. *)

Module Sample.

Definition here : AidlNode.t :=
  {| AidlNode.location_ :=
       {| AidlLocation.file_ := "a/b/IFoo.aidl";
          AidlLocation.begin_ := {| AidlLocation.line := 3;
                                    AidlLocation.column := 7 |};
          AidlLocation.end_ := {| AidlLocation.line := 3;
                                  AidlLocation.column := 12 |} |} |}.

Definition specifier {params : Type} (name : string) (is_array : bool)
    (type_params : option params) : AidlTypeSpecifier.t params :=
  AidlTypeSpecifier.Build here [] name EmptyString is_array type_params
    EmptyString None.

Definition int_type : AidlTypeSpecifier.owned :=
  AidlTypeSpecifier.Owned (specifier "int" false None).
Definition int_array_type : AidlTypeSpecifier.owned :=
  AidlTypeSpecifier.Owned (specifier "int" true None).
Definition Bar_type : AidlTypeSpecifier.owned :=
  AidlTypeSpecifier.Owned (specifier "Bar" false None).
Definition List_of_Bar : AidlTypeSpecifier.owned :=
  AidlTypeSpecifier.Owned (specifier "List" false (Some [Bar_type])).

Definition resolved_Bar : AidlTypeSpecifier.object :=
  AidlTypeSpecifier.Build here [] "Bar" "a.b.Bar" false None
    EmptyString None.

Definition argument (d : AidlArgument.Direction)
    (type : AidlTypeSpecifier.owned)
    (name : string) : AidlArgument.t :=
  {| AidlArgument.var :=
       {| AidlVariableDeclaration.node := here;
          AidlVariableDeclaration.type_ := type;
          AidlVariableDeclaration.name_ := name;
          AidlVariableDeclaration.default_value_ := None |};
     AidlArgument.direction_ := d;
     AidlArgument.direction_specified_ := true |}.

Definition f : AidlMethod.t :=
  AidlMethod.make (AidlNode.location_ here) false int_type "f"
    [argument AidlArgument.IN_DIR int_type "a";
     argument AidlArgument.OUT_DIR int_array_type "b";
     argument AidlArgument.INOUT_DIR Bar_type "c"]
    EmptyString.

Definition base (name : string) (package : list string)
  : AidlDefinedType.base :=
  {| AidlDefinedType.node := here;
     AidlDefinedType.annotations_ := [];
     AidlDefinedType.name_ := name;
     AidlDefinedType.comments_ := EmptyString;
     AidlDefinedType.language_type_ := None;
     AidlDefinedType.package_ := package |}.

Definition IFoo : AidlDefinedType.t :=
  AidlDefinedType.Interface (base "IFoo" ["a"; "b"])
    {| AidlDefinedType.oneway_ := false;
       AidlDefinedType.methods_ := [f];
       AidlDefinedType.constants_ := [] |}.

(** The symbol table of the unit: [int] and [List] are built in, [Bar] is
    defined in package [a.b], nothing else is known. *)
Definition typenames (name : string) : option string :=
  if String.eqb name "int" then Some "int"
  else if String.eqb name "List" then Some "List"
  else if String.eqb name "Bar" then Some "a.b.Bar"
  else None.

(** A document owning the defined types at addresses 10 and 11, and a
    release policy that hands out the first slot. *)
Definition document : AidlDocument.t :=
  AidlDocument.AddDefinedType (Some 11%nat)
    (AidlDocument.AddDefinedType (Some 10%nat) AidlDocument.empty).

Definition first_slot (slots : list (option nat)) : nat := 0.

Definition import (needed_class : string) : AidlImport.t :=
  {| AidlImport.node := here;
     AidlImport.filename_ := EmptyString;
     AidlImport.needed_class_ := needed_class;
     AidlImport.imported_doc_ := None |}.

(** A parser that has met two imports and deferred three specifiers, in
    the order of the addresses 1, 2 and 3 of the store [specifiers]:
    [int], then the parameter of [List<element>] and then that generic
    specifier itself. *)
Definition parser : Parser.t :=
  Parser.DeferResolution 3
    (Parser.DeferResolution 2
       (Parser.DeferResolution 1
          {| Parser.error_ := 0;
             Parser.filename_ := "a/b/IFoo.aidl";
             Parser.package_ := None;
             Parser.document_ := None;
             Parser.imports_ := [import "a.b.Bar"; import "a.c.Baz"];
             Parser.unresolved_typespecs_ := [] |})).

Definition specifiers (element : string) : Parser.store :=
  {| Parser.typespecs :=
       <[1%nat := specifier "int" false None]>
         (<[2%nat := specifier element false None]>
            (<[3%nat := specifier "List" false (Some [2%nat])]> ∅));
     Parser.resolve_calls := [] |}.

(** The process compiling the unit, before it has written anything. *)
Definition process : AidlError.state :=
  {| AidlError.os := EmptyString; AidlError.parser := parser |}.

End Sample.

(** ** AidlMember and its subclasses *)

Module AidlMember.

(** [AidlMember] is a concrete class with a public constructor: an object
    is of the base class itself, which adds no data of its own to the
    node, or of one of its two subclasses. *)
Inductive t :=
| Member (node : AidlNode.t)
| Method (m : AidlMethod.t)
| ConstantDeclaration (c : AidlConstantDeclaration.t).

Inductive class := AidlMember_ | AidlMethod_ | AidlConstantDeclaration_.

(** A class followed by its base class. *)
Definition lineage (c : class) : list class :=
  match c with
  | AidlMember_ => [AidlMember_]
  | AidlMethod_ => [AidlMethod_; AidlMember_]
  | AidlConstantDeclaration_ => [AidlConstantDeclaration_; AidlMember_]
  end.

Inductive downcast := AsMethod_ | AsConstantDeclaration_.

(** The body a class itself declares for a downcast, if it declares one:
    [true] for [return this;], [false] for [return nullptr;]. *)
Definition declares (c : class) (f : downcast) : option bool :=
  match c, f with
  | AidlMember_, _ => Some false
  | AidlMethod_, AsMethod_ => Some true
  | AidlConstantDeclaration_, AsConstantDeclaration_ => Some true
  | _, _ => None
  end.

Fixpoint final_overrider (cs : list class) (f : downcast) : bool :=
  match cs with
  | [] => false
  | c :: bases =>
      match declares c f with
      | Some body => body
      | None => final_overrider bases f
      end
  end.

Definition dynamic_class (x : t) : class :=
  match x with
  | Member _ => AidlMember_
  | Method _ => AidlMethod_
  | ConstantDeclaration _ => AidlConstantDeclaration_
  end.

(** A virtual call of downcast [f] on [x]: [this] or [nullptr]. *)
Definition call (f : downcast) (x : t) : option t :=
  if final_overrider (lineage (dynamic_class x)) f then Some x else None.

Definition AsMethod : t -> option t := call AsMethod_.
Definition AsConstantDeclaration : t -> option t := call AsConstantDeclaration_.

End AidlMember.

(** ** The values of [AidlArgument::Direction]

    [Direction] is an unscoped enumeration with the enumerators 1, 2 and
    3 and no fixed underlying type, so the values an object of the type
    can hold are those of a two-bit field, 0 to 3: besides the three
    enumerators the value 0, which none of them names.  The bit tests of
    [IsOut] and [IsIn] are taken here on such a value. *)

Module DirectionValue.

Definition in_range (d : Z) : Prop := (0 <= d <= 3)%Z.

(** [direction_ & OUT_DIR], converted to [bool]. *)
Definition IsOut (d : Z) : bool :=
  negb (Z.land d (AidlArgument.Direction_value AidlArgument.OUT_DIR) =? 0)%Z.

(** [direction_ & IN_DIR], converted to [bool]. *)
Definition IsIn (d : Z) : bool :=
  negb (Z.land d (AidlArgument.Direction_value AidlArgument.IN_DIR) =? 0)%Z.

End DirectionValue.

(** ** Sequences of calls

    What a caller does to one object over time is a list of calls of its
    non-const member functions, applied from the first to the last. *)

Module TypeSpecifierCalls.

Inductive call :=
| Annotate (annotations : list AidlAnnotation.t)
| SetLanguageType (language_type : option nat).

Definition apply {params} (ts : AidlTypeSpecifier.t params) (c : call)
  : AidlTypeSpecifier.t params :=
  match c with
  | Annotate annotations => AidlTypeSpecifier.Annotate annotations ts
  | SetLanguageType language_type =>
      AidlTypeSpecifier.SetLanguageType language_type ts
  end.

Definition run {params} (calls : list call) (ts : AidlTypeSpecifier.t params)
  : AidlTypeSpecifier.t params :=
  foldl apply ts calls.

Definition is_Annotate (c : call) : bool :=
  match c with Annotate _ => true | SetLanguageType _ => false end.

End TypeSpecifierCalls.

Module ImportCalls.

Inductive call :=
| SetFilename (filename : string)
| SetAidlDocument (doc : option AidlDocument.t).

Definition apply (i : AidlImport.t) (c : call) : AidlImport.t :=
  match c with
  | SetFilename filename => AidlImport.SetFilename filename i
  | SetAidlDocument doc => AidlImport.SetAidlDocument doc i
  end.

Definition run (calls : list call) (i : AidlImport.t) : AidlImport.t :=
  foldl apply i calls.

Definition is_SetFilename (c : call) : bool :=
  match c with SetFilename _ => true | SetAidlDocument _ => false end.

Definition is_SetAidlDocument (c : call) : bool :=
  match c with SetFilename _ => false | SetAidlDocument _ => true end.

End ImportCalls.

Module ParserCalls.

(** The member functions of [Parser] the header defines inline that
    change the parser.  [ReleaseImports] is called with a pointer to a
    vector of the caller's, whose contents before the call do not
    matter. *)
Inductive call :=
| AddError
| SetDocument (doc : option AidlDocument.t)
| SetPackage (name : option AidlQualifiedName.t)
| ReleaseDocument
| ReleaseImports
| DeferResolution (typespec : nat).

Section Run.

Variable moved_from : list AidlImport.t -> list AidlImport.t.

(** The parser after one call; [None] when the call has no defined
    result, which only [AddError] at [INT_MAX] has. *)
Definition apply (p : Parser.t) (c : call) : option Parser.t :=
  match c with
  | AddError => Parser.AddError p
  | SetDocument doc => Some (Parser.SetDocument doc p)
  | SetPackage name => Some (Parser.SetPackage name p)
  | ReleaseDocument => Some (snd (Parser.ReleaseDocument p))
  | ReleaseImports => Some (fst (Parser.ReleaseImports moved_from p []))
  | DeferResolution typespec => Some (Parser.DeferResolution typespec p)
  end.

Fixpoint run (calls : list call) (p : Parser.t) : option Parser.t :=
  match calls with
  | [] => Some p
  | c :: rest =>
      match apply p c with
      | Some p' => run rest p'
      | None => None
      end
  end.

End Run.

(** The pointers the calls defer, in the order of the calls. *)
Definition deferred (calls : list call) : list nat :=
  omap (fun c => match c with DeferResolution a => Some a | _ => None end)
       calls.

(** How many of the calls are [AddError]. *)
Definition errors (calls : list call) : nat :=
  length (List.filter (fun c => match c with AddError => true | _ => false end)
                      calls).

Definition releases_imports (calls : list call) : bool :=
  existsb (fun c => match c with ReleaseImports => true | _ => false end)
          calls.

End ParserCalls.

Module Diagnostics.

(** A diagnostic statement on a file name:
    [AidlError(fatal, os, filename).os_ << m1 << ... ;]. *)
Record t := {
  fatal : bool;
  filename : string;
  message : list string
}.

(** Consecutive diagnostic statements. *)
Fixpoint report_all (ds : list t) : AidlError.M unit :=
  match ds with
  | [] => mret tt
  | d :: rest =>
      AidlError.report (fatal d) (AidlError.Filename (filename d)) (message d)
      ;; report_all rest
  end.

(** The line one diagnostic writes. *)
Definition line (d : t) : string :=
  "ERROR: " ++ filename d ++ ": "
  ++ String.concat EmptyString (message d) ++ endl.

(** The diagnostics up to and including the first fatal one. *)
Fixpoint until_fatal (ds : list t) : list t :=
  match ds with
  | [] => []
  | d :: rest => if fatal d then [d] else d :: until_fatal rest
  end.

End Diagnostics.
(** * Properties *)

(** ** Type specifiers *)

Lemma IsResolved_true_iff {params} (ts : AidlTypeSpecifier.t params) :
  AidlTypeSpecifier.IsResolved ts = true <->
  AidlTypeSpecifier.fully_qualified_name_ ts <> EmptyString.
Proof.
  unfold AidlTypeSpecifier.IsResolved.
  rewrite negb_true_iff.
  destruct (String.eqb_spec (AidlTypeSpecifier.fully_qualified_name_ ts)
                            EmptyString) as [E | E];
    split; intros H; congruence.
Qed.

Example Bar_unresolved_name :
  AidlTypeSpecifier.IsResolved (AidlTypeSpecifier.members Sample.Bar_type)
  = false /\
  AidlTypeSpecifier.GetName (AidlTypeSpecifier.members Sample.Bar_type)
  = "Bar".
Proof. split; reflexivity. Qed.

Example Bar_resolved_name :
  AidlTypeSpecifier.IsResolved Sample.resolved_Bar = true /\
  AidlTypeSpecifier.GetName Sample.resolved_Bar = "a.b.Bar".
Proof. split; reflexivity. Qed.

Example List_type_parameters :
  AidlTypeSpecifier.GetTypeParameters
    (AidlTypeSpecifier.members Sample.List_of_Bar)
  = Some [Sample.Bar_type].
Proof. reflexivity. Qed.

Example int_type_parameters :
  AidlTypeSpecifier.GetTypeParameters
    (AidlTypeSpecifier.members Sample.int_type)
  = None.
Proof. reflexivity. Qed.

(** C1: a type specifier is resolved exactly when its stored fully-qualified
    name is non-empty; [GetName] returns the fully-qualified name of a
    resolved specifier and the name as originally written otherwise. *)
Theorem GetName_prefers_resolved_name {params}
    (ts : AidlTypeSpecifier.t params) :
  (AidlTypeSpecifier.IsResolved ts = true <->
   AidlTypeSpecifier.fully_qualified_name_ ts <> EmptyString) /\
  (AidlTypeSpecifier.IsResolved ts = true ->
   AidlTypeSpecifier.GetName ts = AidlTypeSpecifier.fully_qualified_name_ ts) /\
  (AidlTypeSpecifier.IsResolved ts = false ->
   AidlTypeSpecifier.GetName ts = AidlTypeSpecifier.unresolved_name_ ts).
Proof.
  split; [apply IsResolved_true_iff |].
  unfold AidlTypeSpecifier.GetName, AidlTypeSpecifier.GetUnresolvedName.
  split; intros ->; reflexivity.
Qed.

(** C9: [GetTypeParameters] has a result exactly for generic specifiers:
    the null dereference is reached if and only if [IsGeneric] is false,
    and for a generic specifier the result is the owned parameter list. *)
Theorem GetTypeParameters_defined_iff_generic {params}
    (ts : AidlTypeSpecifier.t params) :
  (AidlTypeSpecifier.IsGeneric ts = true <->
   exists type_params,
     AidlTypeSpecifier.GetTypeParameters ts = Some type_params) /\
  (AidlTypeSpecifier.IsGeneric ts = false <->
   AidlTypeSpecifier.GetTypeParameters ts = None) /\
  (forall type_params,
      AidlTypeSpecifier.GetTypeParameters ts = Some type_params ->
      AidlTypeSpecifier.type_params_ ts = Some type_params).
Proof.
  unfold AidlTypeSpecifier.IsGeneric, AidlTypeSpecifier.GetTypeParameters.
  destruct (AidlTypeSpecifier.type_params_ ts) as [type_params |].
  - repeat split; try congruence; eauto.
  - repeat split; try congruence. intros [type_params H]. congruence.
Qed.

(** ** Constant values *)

Example ParseHex_0x4f :
  AidlConstantValue.ParseHex (fun location _ => AidlConstantValue.Error location)
    AidlLocation.nowhere "0x4f"
  = AidlConstantValue.LiteralInt AidlLocation.nowhere 79.
Proof. reflexivity. Qed.

Example ParseHex_0x4f_value :
  AidlConstantValue.value_
    (AidlConstantValue.ParseHex
       (fun location _ => AidlConstantValue.Error location)
       AidlLocation.nowhere "0x4f") = "79".
Proof. vm_compute. reflexivity. Qed.

Example ParseHex_0xFF :
  AidlConstantValue.value_
    (AidlConstantValue.ParseHex
       (fun location _ => AidlConstantValue.Error location)
       AidlLocation.nowhere "0xFF") = "255".
Proof. vm_compute. reflexivity. Qed.

Example ParseHex_0x7fffffff :
  AidlConstantValue.value_
    (AidlConstantValue.ParseHex
       (fun location _ => AidlConstantValue.Error location)
       AidlLocation.nowhere "0x7fffffff") = "2147483647".
Proof. vm_compute. reflexivity. Qed.

Example ParseHex_bare_prefix :
  AidlConstantValue.GetType
    (AidlConstantValue.ParseHex
       (fun location _ => AidlConstantValue.Error location)
       AidlLocation.nowhere "0x")
  = AidlConstantValue.ERROR.
Proof. reflexivity. Qed.

Example ParseHex_0x4g :
  AidlConstantValue.GetType
    (AidlConstantValue.ParseHex
       (fun location _ => AidlConstantValue.Error location)
       AidlLocation.nowhere "0x4g")
  = AidlConstantValue.ERROR.
Proof. reflexivity. Qed.

Example LiteralInt_converts :
  AidlConstantValue.value_
    (AidlConstantValue.LiteralInt AidlLocation.nowhere 4294967295) = "-1".
Proof. vm_compute. reflexivity. Qed.

Lemma hex_digit_value_digit_of (c : Ascii.ascii) :
  AidlConstantValue.hex_digit_value c
  = N.of_nat <$> AidlConstantValue.digit_of c.
Proof.
  destruct c as [[] [] [] [] [] [] [] []]; vm_compute; reflexivity.
Qed.

Lemma parse_hex_digits_number (digits : string) (n : N) :
  AidlConstantValue.hex_number digits n ->
  forall acc,
    AidlConstantValue.parse_hex_digits acc digits
    = Some (acc * 16 ^ N.of_nat (String.length digits) + n)%N.
Proof.
  induction 1 as [c d Hd | c d rest n Hd Hrest IH]; intros acc; simpl;
    rewrite hex_digit_value_digit_of, Hd; simpl.
  - f_equal. lia.
  - rewrite IH. f_equal.
    rewrite Nat2N.inj_succ, N.pow_succ_r'. lia.
Qed.

Lemma parse_hex_digits_inv (digits : string) :
  forall acc v,
    digits <> EmptyString ->
    AidlConstantValue.parse_hex_digits acc digits = Some v ->
    exists n,
      AidlConstantValue.hex_number digits n /\
      v = (acc * 16 ^ N.of_nat (String.length digits) + n)%N.
Proof.
  induction digits as [| c rest IH]; intros acc v Hne Hparse; [congruence |].
  simpl in Hparse. rewrite hex_digit_value_digit_of in Hparse.
  destruct (AidlConstantValue.digit_of c) as [d |] eqn:Hd; simpl in Hparse;
    [| discriminate].
  destruct rest as [| c' rest'].
  - simpl in Hparse. injection Hparse as <-.
    exists (N.of_nat d). split; [by constructor |]. simpl. lia.
  - destruct (IH _ _ ltac:(discriminate) Hparse) as (n & Hn & ->).
    eexists. split; [by apply AidlConstantValue.hex_number_cons |].
    change (String.length (String c (String c' rest')))
      with (S (String.length (String c' rest'))).
    rewrite Nat2N.inj_succ, N.pow_succ_r'. lia.
Qed.

Lemma strip_prefix_Some (prefix text rest : string) :
  AidlConstantValue.strip_prefix prefix text = Some rest <->
  text = prefix ++ rest.
Proof.
  revert text. induction prefix as [| a prefix IH]; intros text; simpl.
  - split; [intros [= ->] | intros ->]; reflexivity.
  - destruct text as [| b text]; [split; discriminate |].
    destruct (Ascii.eqb_spec a b) as [-> | Hne].
    + rewrite IH. split; [intros -> | intros [= ->]]; reflexivity.
    + split; [discriminate | intros [= <- _]; by destruct Hne].
Qed.


Lemma to_int32_small (z : Z) :
  (0 <= z <= AidlConstantValue.INT32_MAX)%Z ->
  AidlConstantValue.to_int32 z = z.
Proof.
  unfold AidlConstantValue.to_int32, AidlConstantValue.INT32_MAX.
  intros Hz. rewrite Z.mod_small; lia.
Qed.

Section ParseHexProperties.

Variable too_wide : AidlLocation.t -> N -> AidlConstantValue.t.

Lemma ParseHex_literal (location : AidlLocation.t) (text : string) (n : N) :
  AidlConstantValue.hex_literal text n ->
  (Z.of_N n <= AidlConstantValue.INT32_MAX)%Z ->
  AidlConstantValue.ParseHex too_wide location text
  = AidlConstantValue.LiteralInt location (Z.of_N n).
Proof.
  intros [digits n' Hn] Hfits. unfold AidlConstantValue.ParseHex.
  replace (AidlConstantValue.strip_prefix "0x" ("0x" ++ digits))
    with (Some digits) by (symmetry; by apply strip_prefix_Some).
  pose proof (parse_hex_digits_number _ _ Hn 0%N) as Hparse.
  destruct digits as [| c rest]; [inversion Hn |].
  rewrite Hparse.
  change (0 * 16 ^ N.of_nat (String.length (String c rest)) + n')%N
    with n'.
  apply Z.leb_le in Hfits. by rewrite Hfits.
Qed.

Lemma ParseHex_not_literal (location : AidlLocation.t) (text : string) :
  (forall n, ~ AidlConstantValue.hex_literal text n) ->
  AidlConstantValue.ParseHex too_wide location text
  = AidlConstantValue.Error location.
Proof.
  intros Hnot. unfold AidlConstantValue.ParseHex.
  destruct (AidlConstantValue.strip_prefix "0x" text) as [[| c rest] |]
    eqn:Hstrip; try reflexivity.
  apply strip_prefix_Some in Hstrip as ->.
  destruct (AidlConstantValue.parse_hex_digits 0 (String c rest))
    as [v |] eqn:Hparse; [| reflexivity].
  destruct (parse_hex_digits_inv (String c rest) 0%N v) as (n & Hn & _);
    [discriminate | exact Hparse |].
  destruct (Hnot n). by constructor.
Qed.

End ParseHexProperties.

(** C5: [ParseHex] on the text 0x4f yields kind Integer with value 79; on
    4f, on any text without the 0x prefix, and on any text that is not a
    hexadecimal literal it yields kind Error.  It has a result on every
    text; on a literal whose value is an [int32_t] the result is the
    Integer of that value.  This holds whatever [ParseHex] makes of the
    literals beyond [INT32_MAX]. *)
Theorem ParseHex_kind_and_value
    (too_wide : AidlLocation.t -> N -> AidlConstantValue.t)
    (location : AidlLocation.t) :
  (AidlConstantValue.GetType
     (AidlConstantValue.ParseHex too_wide location "0x4f")
   = AidlConstantValue.INTEGER /\
   AidlConstantValue.value_
     (AidlConstantValue.ParseHex too_wide location "0x4f")
   = "79" /\
   AidlConstantValue.ParseHex too_wide location "0x4f"
   = AidlConstantValue.LiteralInt location 79) /\
  AidlConstantValue.GetType
    (AidlConstantValue.ParseHex too_wide location "4f")
  = AidlConstantValue.ERROR /\
  (forall text,
      (forall rest, text <> "0x" ++ rest) ->
      AidlConstantValue.GetType
        (AidlConstantValue.ParseHex too_wide location text)
      = AidlConstantValue.ERROR) /\
  (forall text,
      (forall n, ~ AidlConstantValue.hex_literal text n) ->
      AidlConstantValue.GetType
        (AidlConstantValue.ParseHex too_wide location text)
      = AidlConstantValue.ERROR) /\
  (forall text n,
      AidlConstantValue.hex_literal text n ->
      (Z.of_N n <= AidlConstantValue.INT32_MAX)%Z ->
      AidlConstantValue.GetType
        (AidlConstantValue.ParseHex too_wide location text)
      = AidlConstantValue.INTEGER /\
      AidlConstantValue.value_
        (AidlConstantValue.ParseHex too_wide location text)
      = pretty (Z.of_N n)).
Proof.
  assert (Hbad : forall text,
             (forall n, ~ AidlConstantValue.hex_literal text n) ->
             AidlConstantValue.GetType
               (AidlConstantValue.ParseHex too_wide location text)
             = AidlConstantValue.ERROR).
  { intros text Hnot. by rewrite ParseHex_not_literal. }
  split; [| split; [| split; [| split]]].
  - repeat split.
  - reflexivity.
  - intros text Hprefix. apply Hbad. intros n Hn.
    destruct Hn as [digits n _]. by apply (Hprefix digits).
  - exact Hbad.
  - intros text n Hn Hfits.
    rewrite (ParseHex_literal too_wide location _ _ Hn Hfits).
    split; [reflexivity |]. simpl.
    rewrite to_int32_small; [reflexivity | lia].
Qed.

(** What the theorem leaves open: a literal beyond [INT32_MAX] is handed
    to the parameter. *)
Example ParseHex_0xFFFFFFFF
    (too_wide : AidlLocation.t -> N -> AidlConstantValue.t) :
  AidlConstantValue.ParseHex too_wide AidlLocation.nowhere "0xFFFFFFFF"
  = too_wide AidlLocation.nowhere 4294967295%N.
Proof. reflexivity. Qed.

(** ** Methods and their argument views *)

Lemma IsIn_direction (a : AidlArgument.t) :
  AidlArgument.IsIn a = true <->
  AidlArgument.GetDirection a = AidlArgument.IN_DIR \/
  AidlArgument.GetDirection a = AidlArgument.INOUT_DIR.
Proof.
  unfold AidlArgument.IsIn, AidlArgument.GetDirection.
  destruct (AidlArgument.direction_ a); simpl; intuition congruence.
Qed.

Lemma IsOut_direction (a : AidlArgument.t) :
  AidlArgument.IsOut a = true <->
  AidlArgument.GetDirection a = AidlArgument.OUT_DIR \/
  AidlArgument.GetDirection a = AidlArgument.INOUT_DIR.
Proof.
  unfold AidlArgument.IsOut, AidlArgument.GetDirection.
  destruct (AidlArgument.direction_ a); simpl; intuition congruence.
Qed.

Section Views.

Local Open Scope list_scope.

Variable test : AidlArgument.t -> bool.

Local Abbreviation selected := (AidlMethod.selected test).

Lemma selected_cons (pre : list AidlArgument.t) a rest :
  selected (pre ++ a :: rest) (length pre) (S (length rest))
  = (if test a then [length pre] else [])
      ++ selected ((pre ++ [a]) ++ rest) (length (pre ++ [a])) (length rest).
Proof.
  unfold AidlMethod.selected. simpl.
  rewrite list_lookup_middle by reflexivity. simpl.
  rewrite <- app_assoc. simpl.
  replace (length (pre ++ [a])) with (S (length pre))
    by (rewrite length_app; simpl; lia).
  by destruct (test a).
Qed.

Lemma selected_deref (pre args : list AidlArgument.t) :
  omap (fun p => (pre ++ args) !! p)
       (selected (pre ++ args) (length pre) (length args))
  = List.filter test args.
Proof.
  revert pre. induction args as [| a rest IH]; intros pre; [reflexivity |].
  simpl length. rewrite selected_cons.
  assert (Hrest := IH (pre ++ [a])).
  rewrite <- app_assoc in Hrest. simpl in Hrest.
  rewrite <- (app_assoc pre [a] rest). simpl.
  destruct (test a) eqn:Ha; simpl.
  - rewrite list_lookup_middle by reflexivity. f_equal. exact Hrest.
  - exact Hrest.
Qed.

Lemma selected_In (all : list AidlArgument.t) (p : nat) :
  In p (selected all 0 (length all)) <->
  exists a, all !! p = Some a /\ test a = true.
Proof.
  unfold AidlMethod.selected. rewrite filter_In, in_seq. split.
  - intros [_ Hp]. destruct (all !! p) as [a |]; [eauto | discriminate].
  - intros (a & Hlookup & Ha). rewrite Hlookup. split; [| exact Ha].
    apply lookup_lt_Some in Hlookup. lia.
Qed.

(** A change of an argument that keeps the outcome of the test keeps the
    selection. *)
Lemma selected_alter (f : AidlArgument.t -> AidlArgument.t)
    (all : list AidlArgument.t) (i : nat) :
  (forall a, test (f a) = test a) ->
  selected (alter f i all) 0 (length (alter f i all))
  = selected all 0 (length all).
Proof.
  intros Hf. unfold AidlMethod.selected. rewrite length_alter.
  apply filter_ext. intros p.
  destruct (decide (p = i)) as [-> | Hne].
  - rewrite list_lookup_alter_eq.
    destruct (all !! i) as [a |]; simpl; [apply Hf | reflexivity].
  - by rewrite list_lookup_alter_ne.
Qed.

End Views.

Lemma scan_arguments_selected (pre args : list AidlArgument.t)
    (ins outs : list nat) :
  AidlMethod.scan_arguments (length pre) args ins outs
  = ((ins ++ AidlMethod.selected AidlArgument.IsIn (pre ++ args)
               (length pre) (length args))%list,
     (outs ++ AidlMethod.selected AidlArgument.IsOut (pre ++ args)
                (length pre) (length args))%list).
Proof.
  revert pre ins outs.
  induction args as [| a rest IH]; intros pre ins outs.
  - unfold AidlMethod.selected. simpl. by rewrite !app_nil_r.
  - simpl AidlMethod.scan_arguments. simpl length.
    rewrite !selected_cons.
    replace (S (length pre)) with (length (pre ++ [a])%list)
      by (rewrite length_app; simpl; lia).
    rewrite IH.
    destruct (AidlArgument.IsIn a), (AidlArgument.IsOut a);
      by rewrite <- ?app_assoc.
Qed.

Lemma scan_arguments_all (args : list AidlArgument.t) :
  AidlMethod.scan_arguments 0 args [] []
  = (AidlMethod.selected AidlArgument.IsIn args 0 (length args),
     AidlMethod.selected AidlArgument.IsOut args 0 (length args)).
Proof. exact (scan_arguments_selected [] args [] []). Qed.

Lemma constructed_views (m : AidlMethod.t) :
  AidlMethod.constructed m ->
  AidlMethod.in_arguments_ m
  = AidlMethod.selected AidlArgument.IsIn (AidlMethod.arguments_ m)
      0 (length (AidlMethod.arguments_ m)) /\
  AidlMethod.out_arguments_ m
  = AidlMethod.selected AidlArgument.IsOut (AidlMethod.arguments_ m)
      0 (length (AidlMethod.arguments_ m)).
Proof.
  induction 1 as [location oneway type name args comments
                 | location oneway type name args comments id
                 | id m Hm IH
                 | type m Hm IH
                 | i type m Hm [IHin IHout]].
  - unfold AidlMethod.make, AidlMethod.make_with_id.
    cbn -[AidlMethod.scan_arguments]. by rewrite scan_arguments_all.
  - unfold AidlMethod.make_with_id.
    cbn -[AidlMethod.scan_arguments]. by rewrite scan_arguments_all.
  - exact IH.
  - exact IH.
  - simpl. rewrite IHin, IHout.
    split; symmetry; by apply selected_alter.
Qed.

(** C3: for every method, [GetInArguments] holds the pointers to exactly
    the arguments whose direction has the IN bit set (direction IN or
    INOUT), in declaration order, and [GetOutArguments] those with the OUT
    bit set (direction OUT or INOUT); so an INOUT argument is in both
    views, an IN argument only in the in-view, an OUT argument only in the
    out-view. *)
Theorem in_out_argument_views (m : AidlMethod.t) :
  AidlMethod.constructed m ->
  (* the views as pointers: the selected positions, in increasing order *)
  AidlMethod.GetInArguments m
  = List.filter
      (fun p => from_option AidlArgument.IsIn false (AidlMethod.deref m p))
      (seq 0 (length (AidlMethod.GetArguments m))) /\
  AidlMethod.GetOutArguments m
  = List.filter
      (fun p => from_option AidlArgument.IsOut false (AidlMethod.deref m p))
      (seq 0 (length (AidlMethod.GetArguments m))) /\
  (* the views as the arguments pointed to *)
  omap (AidlMethod.deref m) (AidlMethod.GetInArguments m)
  = List.filter AidlArgument.IsIn (AidlMethod.GetArguments m) /\
  omap (AidlMethod.deref m) (AidlMethod.GetOutArguments m)
  = List.filter AidlArgument.IsOut (AidlMethod.GetArguments m) /\
  (* the bit tests are the directions *)
  (forall a,
      (AidlArgument.IsIn a = true <->
       AidlArgument.GetDirection a = AidlArgument.IN_DIR \/
       AidlArgument.GetDirection a = AidlArgument.INOUT_DIR) /\
      (AidlArgument.IsOut a = true <->
       AidlArgument.GetDirection a = AidlArgument.OUT_DIR \/
       AidlArgument.GetDirection a = AidlArgument.INOUT_DIR)) /\
  (* where each argument appears *)
  (forall p a,
      AidlMethod.deref m p = Some a ->
      match AidlArgument.GetDirection a with
      | AidlArgument.INOUT_DIR =>
          In p (AidlMethod.GetInArguments m) /\
          In p (AidlMethod.GetOutArguments m)
      | AidlArgument.IN_DIR =>
          In p (AidlMethod.GetInArguments m) /\
          ~ In p (AidlMethod.GetOutArguments m)
      | AidlArgument.OUT_DIR =>
          ~ In p (AidlMethod.GetInArguments m) /\
          In p (AidlMethod.GetOutArguments m)
      end).
Proof.
  intros Hm. destruct (constructed_views m Hm) as [Hin Hout].
  unfold AidlMethod.GetInArguments, AidlMethod.GetOutArguments,
    AidlMethod.GetArguments, AidlMethod.deref.
  rewrite Hin, Hout.
  split; [reflexivity |]. split; [reflexivity |].
  split; [exact (selected_deref AidlArgument.IsIn [] _) |].
  split; [exact (selected_deref AidlArgument.IsOut [] _) |].
  split; [intros a; split; [apply IsIn_direction | apply IsOut_direction] |].
  intros p a Hp.
  assert (Hi : In p (AidlMethod.selected AidlArgument.IsIn
                       (AidlMethod.arguments_ m) 0
                       (length (AidlMethod.arguments_ m)))
               <-> AidlArgument.IsIn a = true).
  { rewrite selected_In. split; [intros (a' & Ha' & Ht) | eauto].
    congruence. }
  assert (Ho : In p (AidlMethod.selected AidlArgument.IsOut
                       (AidlMethod.arguments_ m) 0
                       (length (AidlMethod.arguments_ m)))
               <-> AidlArgument.IsOut a = true).
  { rewrite selected_In. split; [intros (a' & Ha' & Ht) | eauto].
    congruence. }
  destruct (AidlArgument.GetDirection a) eqn:Hd;
    rewrite Hi, Ho, IsIn_direction, IsOut_direction, Hd;
    intuition congruence.
Qed.

Example f_in_arguments : AidlMethod.GetInArguments Sample.f = [0; 2].
Proof. reflexivity. Qed.

Example f_out_arguments : AidlMethod.GetOutArguments Sample.f = [1; 2].
Proof. reflexivity. Qed.

Lemma in_out_argument_views_witness :
  AidlMethod.constructed Sample.f /\
  AidlMethod.GetInArguments Sample.f = [0; 2] /\
  AidlMethod.GetOutArguments Sample.f = [1; 2].
Proof.
  assert (Hf : AidlMethod.constructed Sample.f)
    by apply AidlMethod.constructed_make.
  split; [exact Hf |].
  destruct (in_out_argument_views Sample.f Hf) as (Hin & Hout & _).
  split; [rewrite Hin | rewrite Hout]; reflexivity.
Defined.

(** ** Defined types *)

Example IFoo_AsInterface :
  AidlDefinedType.AsInterface Sample.IFoo = Some Sample.IFoo.
Proof. reflexivity. Qed.

Example IFoo_AsParcelable :
  AidlDefinedType.AsParcelable Sample.IFoo = None.
Proof. reflexivity. Qed.

(** C4: an interface answers non-null only to [AsInterface]; an
    unstructured parcelable only to [AsParcelable] (and to
    [AsUnstructuredParcelable]); a structured parcelable to both
    [AsStructuredParcelable] and [AsParcelable] and to nothing else, in
    particular not to [AsUnstructuredParcelable].  A non-null answer is the
    object itself. *)
Theorem downcasts_by_variant :
  (forall b i,
      let d := AidlDefinedType.Interface b i in
      AidlDefinedType.AsInterface d = Some d /\
      AidlDefinedType.AsParcelable d = None /\
      AidlDefinedType.AsStructuredParcelable d = None /\
      AidlDefinedType.AsUnstructuredParcelable d = None) /\
  (forall b p,
      let d := AidlDefinedType.Parcelable b p in
      AidlDefinedType.AsInterface d = None /\
      AidlDefinedType.AsParcelable d = Some d /\
      AidlDefinedType.AsStructuredParcelable d = None /\
      AidlDefinedType.AsUnstructuredParcelable d = Some d) /\
  (forall b p s,
      let d := AidlDefinedType.StructuredParcelable b p s in
      AidlDefinedType.AsInterface d = None /\
      AidlDefinedType.AsParcelable d = Some d /\
      AidlDefinedType.AsStructuredParcelable d = Some d /\
      AidlDefinedType.AsUnstructuredParcelable d = None) /\
  (* of the three exclusive queries, exactly one answers *)
  (forall d,
      (is_Some (AidlDefinedType.AsInterface d) /\
       AidlDefinedType.AsUnstructuredParcelable d = None /\
       AidlDefinedType.AsStructuredParcelable d = None) \/
      (AidlDefinedType.AsInterface d = None /\
       is_Some (AidlDefinedType.AsUnstructuredParcelable d) /\
       AidlDefinedType.AsStructuredParcelable d = None) \/
      (AidlDefinedType.AsInterface d = None /\
       AidlDefinedType.AsUnstructuredParcelable d = None /\
       is_Some (AidlDefinedType.AsStructuredParcelable d))).
Proof.
  repeat split.
  intros [b p | b p s | b i]; [right; left | right; right | left];
    repeat split; by eexists.
Qed.

Lemma step_base_fields (d d' : AidlDefinedType.t) :
  AidlDefinedType.step d d' ->
  AidlDefinedType.GetSplitPackage d' = AidlDefinedType.GetSplitPackage d /\
  AidlDefinedType.GetName d' = AidlDefinedType.GetName d.
Proof. intros [? [] | ? [] | ? ? [] | ? ? [] | ? ? []]; split; reflexivity. Qed.

Lemma steps_base_fields (d d' : AidlDefinedType.t) :
  AidlDefinedType.steps d d' ->
  AidlDefinedType.GetSplitPackage d' = AidlDefinedType.GetSplitPackage d /\
  AidlDefinedType.GetName d' = AidlDefinedType.GetName d.
Proof.
  induction 1 as [d | d1 d2 d3 H12 _ [IHp IHn]]; [split; reflexivity |].
  destruct (step_base_fields _ _ H12) as [Hp Hn].
  split; congruence.
Qed.

(** C7: the canonical name of a defined type is its package segments
    joined with dots, then a dot, then its local name; no member function
    of the class changes the package segments, so the package and the
    canonical name are the same after any calls, also for a type whose
    package list is empty. *)
Theorem canonical_name_of_fixed_package (d d' : AidlDefinedType.t) :
  AidlDefinedType.steps d d' ->
  AidlDefinedType.GetCanonicalName d
  = String.concat "." (AidlDefinedType.GetSplitPackage d)
      ++ "." ++ AidlDefinedType.GetName d /\
  AidlDefinedType.GetSplitPackage d' = AidlDefinedType.GetSplitPackage d /\
  AidlDefinedType.GetCanonicalName d' = AidlDefinedType.GetCanonicalName d /\
  (AidlDefinedType.GetSplitPackage d = [] ->
   AidlDefinedType.GetCanonicalName d' = "." ++ AidlDefinedType.GetName d).
Proof.
  intros Hsteps. destruct (steps_base_fields _ _ Hsteps) as [Hp Hn].
  unfold AidlDefinedType.GetCanonicalName, AidlDefinedType.GetPackage.
  fold (AidlDefinedType.GetSplitPackage d).
  fold (AidlDefinedType.GetSplitPackage d').
  rewrite Hp, Hn. repeat split. by intros ->.
Qed.

Example IFoo_canonical_name :
  AidlDefinedType.GetCanonicalName Sample.IFoo = "a.b.IFoo".
Proof. reflexivity. Qed.

Lemma canonical_name_of_fixed_package_witness :
  AidlDefinedType.GetCanonicalName
    (AidlDefinedType.alter_method 0 (AidlMethod.SetId 5)
       (AidlDefinedType.SetLanguageType (Some 7%nat)
          (AidlDefinedType.Annotate [] Sample.IFoo)))
  = "a.b.IFoo".
Proof.
  pose proof (canonical_name_of_fixed_package Sample.IFoo
                (AidlDefinedType.alter_method 0 (AidlMethod.SetId 5)
                   (AidlDefinedType.SetLanguageType (Some 7%nat)
                      (AidlDefinedType.Annotate [] Sample.IFoo)))) as H.
  destruct H as (_ & _ & -> & _); [| reflexivity].
  eapply AidlDefinedType.steps_step; [apply AidlDefinedType.step_Annotate |].
  eapply AidlDefinedType.steps_step;
    [apply AidlDefinedType.step_SetLanguageType |].
  eapply AidlDefinedType.steps_step;
    [apply AidlDefinedType.step_method |].
  apply AidlDefinedType.steps_refl.
Defined.

(** ** Documents *)

Example release_first :
  AidlDocument.ReleaseDefinedType Sample.first_slot Sample.document
  = (Some 10%nat,
     {| AidlDocument.defined_types_ := [None; Some 11%nat] |}).
Proof. reflexivity. Qed.

Lemma sample_document_unique_owners :
  AidlDocument.unique_owners Sample.document.
Proof.
  intros [| [| i]] [| [| j]] p; simpl; intros Hi Hj;
    try reflexivity; try discriminate; congruence.
Qed.

(** C8: when a document in which every held type has one owning slot
    releases a defined type, that type is no longer among the types
    [GetDefinedTypes] lists (it was before the call), and the other types
    are listed as before. *)
Theorem released_type_not_listed
    (released_slot : list (option nat) -> nat)
    (doc doc' : AidlDocument.t) (p : nat) :
  AidlDocument.unique_owners doc ->
  AidlDocument.ReleaseDefinedType released_slot doc = (Some p, doc') ->
  (Some p ∈ AidlDocument.GetDefinedTypes doc) /\
  (Some p ∉ AidlDocument.GetDefinedTypes doc') /\
  (forall q, q <> p ->
             (Some q ∈ AidlDocument.GetDefinedTypes doc') <->
             (Some q ∈ AidlDocument.GetDefinedTypes doc)).
Proof.
  unfold AidlDocument.ReleaseDefinedType, AidlDocument.GetDefinedTypes.
  intros Hunique Hrelease.
  set (i := released_slot (AidlDocument.defined_types_ doc)) in *.
  destruct (AidlDocument.defined_types_ doc !! i) as [[p0 |] |] eqn:Hslot;
    try discriminate.
  injection Hrelease as -> <-. simpl.
  assert (Hother : forall j q,
             <[i := None]> (AidlDocument.defined_types_ doc) !! j
             = Some (Some q) ->
             j <> i /\ AidlDocument.defined_types_ doc !! j = Some (Some q)).
  { intros j q Hj. destruct (decide (j = i)) as [-> | Hne].
    - rewrite list_lookup_insert_eq in Hj by (by eapply lookup_lt_Some).
      discriminate.
    - rewrite list_lookup_insert_ne in Hj by congruence. by split. }
  split; [by eapply list_elem_of_lookup_2 |]. split.
  - intros Hin. apply list_elem_of_lookup in Hin as [j Hj].
    destruct (Hother _ _ Hj) as [Hne Hj']. by apply Hne, (Hunique j i p).
  - intros q Hq. rewrite !list_elem_of_lookup. split.
    + intros [j Hj]. exists j. by apply Hother.
    + intros [j Hj]. exists j.
      rewrite list_lookup_insert_ne; [exact Hj |].
      intros ->. congruence.
Qed.

Lemma released_type_not_listed_witness :
  Some 10%nat ∉ [None; Some 11%nat].
Proof.
  exact (proj1 (proj2 (released_type_not_listed Sample.first_slot
                         Sample.document _ 10%nat
                         sample_document_unique_owners release_first))).
Defined.

(** ** The parser's import list *)

(** C10: [ReleaseImports] leaves in [*ret] the import list the parser
    held, in the same order, whatever [*ret] held before; afterwards
    [GetImports] is empty, so a second [ReleaseImports] yields an empty
    list.  The other members of the parser are untouched. *)
Theorem ReleaseImports_moves_the_list
    (moved_from : list AidlImport.t -> list AidlImport.t)
    (p : Parser.t) (ret ret2 : list AidlImport.t) :
  snd (Parser.ReleaseImports moved_from p ret) = Parser.GetImports p /\
  Parser.GetImports (fst (Parser.ReleaseImports moved_from p ret)) = [] /\
  snd (Parser.ReleaseImports moved_from
         (fst (Parser.ReleaseImports moved_from p ret)) ret2) = [] /\
  fst (Parser.ReleaseImports moved_from p ret) = Parser.set_imports [] p.
Proof. repeat split. Qed.

Example ReleaseImports_sample :
  Parser.ReleaseImports (fun imports => imports) Sample.parser []
  = (Parser.set_imports [] Sample.parser,
     [Sample.import "a.b.Bar"; Sample.import "a.c.Baz"]).
Proof. reflexivity. Qed.

(** ** Deferred resolution *)

Lemma forallb_pointwise {A} (f g : A -> bool) (l : list A) :
  (forall x, f x = g x) -> forallb f l = forallb g l.
Proof. intros Hfg. induction l as [| x l IH]; simpl; congruence. Qed.

Section Resolution.

Variable ResolveTypename : string -> option string.

Local Abbreviation R := (AidlTypeSpecifier.Resolve ResolveTypename).

Lemma Resolve_ok {params} (ts : AidlTypeSpecifier.t params) :
  fst (R ts) = true <->
  is_Some (ResolveTypename (AidlTypeSpecifier.unresolved_name_ ts)).
Proof.
  unfold AidlTypeSpecifier.Resolve.
  destruct (ResolveTypename _) as [canonical |]; simpl.
  - split; eauto.
  - split; [discriminate | by intros [? ?]].
Qed.

Lemma Resolve_unresolved_name {params} (ts : AidlTypeSpecifier.t params) :
  AidlTypeSpecifier.unresolved_name_ (snd (R ts))
  = AidlTypeSpecifier.unresolved_name_ ts.
Proof.
  unfold AidlTypeSpecifier.Resolve.
  by destruct (ResolveTypename _).
Qed.

Lemma Resolve_again {params} (ts : AidlTypeSpecifier.t params) :
  R (snd (R ts)) = R ts.
Proof.
  unfold AidlTypeSpecifier.Resolve.
  destruct (ResolveTypename (AidlTypeSpecifier.unresolved_name_ ts))
    as [canonical |] eqn:Hname; simpl; by rewrite Hname.
Qed.

(** The flag [Resolve] returns on the specifier at address [a], false
    when there is none. *)
Local Abbreviation ok st a :=
  (from_option (fun ts => fst (R ts)) false (Parser.typespecs st !! a)).

(** What a pass over [pending] makes of the specifier at address [a]. *)
Local Abbreviation after pending a :=
  (fun ts => if decide (a ∈ pending) then snd (R ts) else ts).

Lemma Resolve_from_spec (pending : list nat) :
  forall (success : bool) (st : Parser.store),
    (forall a, a ∈ pending -> is_Some (Parser.typespecs st !! a)) ->
    exists st',
      Parser.Resolve_from ResolveTypename pending success st
      = Some (success && forallb (fun a => ok st a) pending, st') /\
      Parser.resolve_calls st'
      = (Parser.resolve_calls st ++ pending)%list /\
      forall a,
        Parser.typespecs st' !! a
        = after pending a <$> Parser.typespecs st !! a.
Proof.
  induction pending as [| a0 rest IH]; intros success st Hvalid.
  - exists st. simpl. rewrite andb_true_r, app_nil_r.
    repeat split. intros a. by destruct (Parser.typespecs st !! a).
  - destruct (Hvalid a0) as [ts0 Hts0]; [by left |].
    simpl. unfold Parser.Resolve_at. rewrite Hts0.
    destruct (R ts0) as [ok0 ts0'] eqn:HR.
    set (st1 := {| Parser.typespecs := <[a0 := ts0']> (Parser.typespecs st);
                   Parser.resolve_calls :=
                     (Parser.resolve_calls st ++ [a0])%list |}).
    assert (Hlookup1 : forall a,
               Parser.typespecs st1 !! a
               = (fun ts => if decide (a = a0) then snd (R ts) else ts)
                   <$> Parser.typespecs st !! a).
    { intros a. simpl. destruct (decide (a = a0)) as [-> | Hne].
      - rewrite lookup_insert_eq, Hts0. simpl. by rewrite HR.
      - rewrite lookup_insert_ne by congruence.
        by destruct (Parser.typespecs st !! a). }
    assert (Hok1 : forall a, ok st1 a = ok st a).
    { intros a. rewrite Hlookup1.
      destruct (Parser.typespecs st !! a) as [ts |]; [| reflexivity].
      simpl. destruct (decide (a = a0)); [| reflexivity].
      by rewrite Resolve_again. }
    destruct (IH (if ok0 then success else false) st1)
      as (st' & Hrun & Hcalls & Hstore).
    { intros a Ha. rewrite Hlookup1.
      destruct (Hvalid a) as [ts ->]; [by right | by eexists]. }
    exists st'. split; [| split].
    + rewrite Hrun. do 2 f_equal.
      rewrite (forallb_pointwise _ _ rest Hok1). simpl. rewrite HR. simpl.
      by destruct ok0, success.
    + rewrite Hcalls. simpl. by rewrite <- app_assoc.
    + intros a. rewrite Hstore, Hlookup1.
      destruct (Parser.typespecs st !! a) as [ts |]; [| reflexivity].
      simpl. f_equal.
      destruct (decide (a = a0)) as [-> | Hne];
        destruct (decide (_ ∈ rest)) as [Hrest | Hrest];
        destruct (decide (_ ∈ a0 :: rest)) as [Hall | Hall];
        rewrite ?Resolve_again; try reflexivity;
        exfalso; rewrite elem_of_cons in Hall; intuition congruence.
Qed.

End Resolution.

Example Resolve_sample_fails :
  fst <$> Parser.Resolve Sample.typenames Sample.parser
            (Sample.specifiers "Baz")
  = Some false.
Proof. reflexivity. Qed.

Example Resolve_sample_succeeds :
  fst <$> Parser.Resolve Sample.typenames Sample.parser
            (Sample.specifiers "Bar")
  = Some true.
Proof. reflexivity. Qed.

Example Resolve_sample_calls :
  (Parser.resolve_calls ∘ snd)
    <$> Parser.Resolve Sample.typenames Sample.parser
          (Sample.specifiers "Baz")
  = Some [1; 2; 3]%nat.
Proof. reflexivity. Qed.

Lemma DeferResolution_many (addresses : list nat) :
  forall p,
    Parser.unresolved_typespecs_
      (foldl (fun q a => Parser.DeferResolution a q) p addresses)
    = (Parser.unresolved_typespecs_ p ++ addresses)%list.
Proof.
  induction addresses as [| a rest IH]; intros p; simpl.
  - by rewrite app_nil_r.
  - rewrite IH. simpl. by rewrite <- app_assoc.
Qed.

(** C2: [DeferResolution] registers specifiers behind those registered
    before them, in the order of the calls.  When every deferred pointer
    points to a specifier, [Resolve] returns; it calls
    [AidlTypeSpecifier::Resolve] once per registration, in registration
    order, leaving each deferred specifier as that call leaves it and every
    other specifier as it was; and it answers success exactly when every
    one of these calls succeeds, failure exactly when at least one
    fails. *)
Theorem Resolve_visits_all_in_order
    (ResolveTypename : string -> option string)
    (p : Parser.t) (st : Parser.store) :
  (forall a, a ∈ Parser.unresolved_typespecs_ p ->
             is_Some (Parser.typespecs st !! a)) ->
  (forall addresses,
      Parser.unresolved_typespecs_
        (foldl (fun q a => Parser.DeferResolution a q) p addresses)
      = (Parser.unresolved_typespecs_ p ++ addresses)%list) /\
  exists success st',
    Parser.Resolve ResolveTypename p st = Some (success, st') /\
    Parser.resolve_calls st'
    = (Parser.resolve_calls st ++ Parser.unresolved_typespecs_ p)%list /\
    (forall a ts,
        Parser.typespecs st !! a = Some ts ->
        Parser.typespecs st' !! a
        = Some (if decide (a ∈ Parser.unresolved_typespecs_ p)
                then snd (AidlTypeSpecifier.Resolve ResolveTypename ts)
                else ts)) /\
    (success = true <->
     forall a ts,
       a ∈ Parser.unresolved_typespecs_ p ->
       Parser.typespecs st !! a = Some ts ->
       fst (AidlTypeSpecifier.Resolve ResolveTypename ts) = true) /\
    (success = false <->
     exists a ts,
       a ∈ Parser.unresolved_typespecs_ p /\
       Parser.typespecs st !! a = Some ts /\
       fst (AidlTypeSpecifier.Resolve ResolveTypename ts) = false).
Proof.
  intros Hvalid. split; [intros; apply DeferResolution_many |].
  destruct (Resolve_from_spec ResolveTypename _ true st Hvalid)
    as (st' & Hrun & Hcalls & Hstore).
  simpl in Hrun.
  set (visit := fun a =>
         from_option
           (fun ts => fst (AidlTypeSpecifier.Resolve ResolveTypename ts))
           false (Parser.typespecs st !! a)) in *.
  assert (Hall : forallb visit (Parser.unresolved_typespecs_ p) = true <->
                 forall a ts,
                   a ∈ Parser.unresolved_typespecs_ p ->
                   Parser.typespecs st !! a = Some ts ->
                   fst (AidlTypeSpecifier.Resolve ResolveTypename ts) = true).
  { rewrite forallb_forall. split.
    - intros H a ts Ha Hts. apply list_elem_of_In, H in Ha.
      unfold visit in Ha. by rewrite Hts in Ha.
    - intros H a Ha%list_elem_of_In. unfold visit.
      destruct (Hvalid a Ha) as [ts Hts]. rewrite Hts. simpl. eauto. }
  eexists _, st'. split; [exact Hrun |]. split; [exact Hcalls |].
  split; [| split].
  - intros a ts Hts. by rewrite Hstore, Hts.
  - exact Hall.
  - rewrite <- not_true_iff_false, Hall. split.
    + intros Hnot.
      destruct (forallb visit (Parser.unresolved_typespecs_ p)) eqn:Hb.
      * destruct Hnot. by apply Hall.
      * assert (Hex : Exists (fun a => visit a = false)
                        (Parser.unresolved_typespecs_ p)).
        { clear -Hb. induction (Parser.unresolved_typespecs_ p) as [| a l IH];
            [discriminate |].
          simpl in Hb. destruct (visit a) eqn:Ha.
          - right. by apply IH.
          - by left. }
        apply Exists_exists in Hex as (a & Ha & Hva).
        destruct (Hvalid a Ha) as [ts Hts].
        exists a, ts. unfold visit in Hva. rewrite Hts in Hva. eauto.
    + intros (a & ts & Ha & Hts & Hfail) H.
      specialize (H a ts Ha Hts). congruence.
Qed.

Lemma Resolve_visits_all_in_order_witness :
  exists success st',
    Parser.Resolve Sample.typenames Sample.parser
      (Sample.specifiers "Baz") = Some (success, st') /\
    Parser.resolve_calls st' = [1; 2; 3]%nat.
Proof.
  destruct (Resolve_visits_all_in_order Sample.typenames Sample.parser
              (Sample.specifiers "Baz"))
    as [_ (success & st' & Hrun & Hcalls & _)].
  - intros a Ha.
    repeat (apply elem_of_cons in Ha as [-> | Ha]); try by eexists.
    by apply elem_of_nil in Ha.
  - exists success, st'. split; [exact Hrun | exact Hcalls].
Defined.

(** ** Diagnostics *)

Lemma append_nil_r (s : string) : s ++ EmptyString = s.
Proof.
  induction s as [| c s IH]; [reflexivity |].
  change (String c (s ++ EmptyString) = String c s). by rewrite IH.
Qed.

Lemma append_assoc (s1 s2 s3 : string) : (s1 ++ s2) ++ s3 = s1 ++ s2 ++ s3.
Proof.
  induction s1 as [| c s1 IH]; [reflexivity |].
  change (String c ((s1 ++ s2) ++ s3) = String c (s1 ++ s2 ++ s3)).
  by rewrite IH.
Qed.

Lemma put_all_run (message : list string) :
  forall s,
    AidlError.put_all message s
    = AidlError.Returned tt
        {| AidlError.os := AidlError.os s
                           ++ String.concat EmptyString message;
           AidlError.parser := AidlError.parser s |}.
Proof.
  induction message as [| text rest IH]; intros s.
  - simpl. rewrite append_nil_r. by destruct s.
  - change (AidlError.put_all (text :: rest) s)
      with (AidlError.put_all rest
              {| AidlError.os := AidlError.os s ++ text;
                 AidlError.parser := AidlError.parser s |}).
    rewrite IH. simpl. do 2 f_equal.
    destruct rest as [| text' rest']; simpl.
    + by rewrite append_nil_r.
    + by rewrite append_assoc.
Qed.

Lemma make_context_run (fatal : bool) (c : AidlError.context)
    (s : AidlError.state) :
  AidlError.make_context fatal c s
  = AidlError.Returned {| AidlError.fatal_ := fatal |}
      {| AidlError.os := AidlError.os s ++ "ERROR: "
                         ++ AidlError.context_prefix c;
         AidlError.parser := AidlError.parser s |}.
Proof.
  destruct c as [filename | l | [l]];
    cbv [AidlError.make_context AidlError.make_filename
         AidlError.make_location AidlError.make_node AidlError.make
         AidlError.put_location AidlError.put AidlError.context_prefix
         mbind mret AidlError.bind AidlError.ret
         AidlError.os AidlError.parser AidlNode.location_];
    by rewrite !append_assoc.
Qed.

Example AIDL_ERROR_sample :
  AidlError.AIDL_ERROR (AidlError.Node Sample.here)
    ["Failed to resolve '"; "Baz"; "'"] Sample.process
  = AidlError.Returned tt
      {| AidlError.os :=
           "ERROR: a/b/IFoo.aidl:3:7: Failed to resolve 'Baz'" ++ endl;
         AidlError.parser := Sample.parser |}.
Proof. vm_compute. reflexivity. Qed.

Example AIDL_FATAL_sample :
  AidlError.AIDL_FATAL (AidlError.Filename "a/b/IFoo.aidl")
    ["unreachable"] Sample.process
  = AidlError.Aborted
      {| AidlError.os := "ERROR: a/b/IFoo.aidl: unreachable" ++ endl;
         AidlError.parser := Sample.parser |}.
Proof. vm_compute. reflexivity. Qed.

Lemma report_run (fatal : bool) (c : AidlError.context)
    (message : list string) (s : AidlError.state) :
  AidlError.report fatal c message s
  = (if fatal then AidlError.Aborted else AidlError.Returned tt)
      {| AidlError.os := AidlError.os s ++ "ERROR: "
                         ++ AidlError.context_prefix c
                         ++ String.concat EmptyString message ++ endl;
         AidlError.parser := AidlError.parser s |}.
Proof.
  unfold AidlError.report.
  cbv [mbind AidlError.bind].
  rewrite make_context_run, put_all_run.
  cbv [AidlError.destroy mbind mret AidlError.bind AidlError.ret
       AidlError.put AidlError.abort AidlError.fatal_
       AidlError.os AidlError.parser].
  rewrite !append_assoc. by destruct fatal.
Qed.

(** C6, as the header has it: a diagnostic writes "ERROR: ", then the
    context prefix (the file name, or file, line and column separated by
    colons, followed by a colon and a space), then the streamed message,
    then a newline; a fatal one terminates the process right after the
    newline, so that nothing placed after it runs, and a non-fatal one
    returns.  Neither touches the parser: after a non-fatal diagnostic the
    parser, and with it its error counter, is as it was before.
    ([Parser::AddError] is a call of its own, and adds one.) *)
Theorem diagnostic_format_and_termination (fatal : bool)
    (c : AidlError.context) (message : list string) (s : AidlError.state) :
  AidlError.report fatal c message s
  = (if fatal then AidlError.Aborted else AidlError.Returned tt)
      {| AidlError.os := AidlError.os s ++ "ERROR: "
                         ++ AidlError.context_prefix c
                         ++ String.concat EmptyString message ++ endl;
         AidlError.parser := AidlError.parser s |} /\
  (forall next : AidlError.M unit,
      (AidlError.report true c message ;; next) s
      = AidlError.report true c message s) /\
  (exists s',
      AidlError.AIDL_ERROR c message s = AidlError.Returned tt s' /\
      AidlError.parser s' = AidlError.parser s /\
      Parser.error_ (AidlError.parser s')
      = Parser.error_ (AidlError.parser s)) /\
  (forall filename,
      AidlError.context_prefix (AidlError.Filename filename)
      = filename ++ ": ") /\
  (forall l,
      AidlError.context_prefix (AidlError.Location l)
      = AidlLocation.file_ l ++ ":"
        ++ pretty (AidlLocation.line (AidlLocation.begin_ l)) ++ ":"
        ++ pretty (AidlLocation.column (AidlLocation.begin_ l)) ++ ": ") /\
  (forall node,
      AidlError.context_prefix (AidlError.Node node)
      = AidlError.context_prefix
          (AidlError.Location (AidlNode.location_ node))) /\
  (forall p,
      (Parser.error_ p < Parser.INT_MAX)%Z ->
      exists p',
        Parser.AddError p = Some p' /\
        Parser.error_ p' = (Parser.error_ p + 1)%Z).
Proof.
  split; [apply report_run |].
  split; [intros next; cbv [mbind AidlError.bind]; by rewrite report_run |].
  split; [eexists; split; [apply report_run | by split] |].
  split; [reflexivity |]. split; [reflexivity |].
  split; [by intros [l] |].
  intros p Hp. unfold Parser.AddError.
  apply Z.ltb_lt in Hp. rewrite Hp. by eexists.
Qed.

(** C6, counterexample to the claim as stated: the non-fatal diagnostic
    [AIDL_ERROR(filename) << text], run by a process whose parser has
    counted no error, returns with the counter still at zero: the
    diagnostic did not increment it. *)
Lemma nonfatal_diagnostic_leaves_error_count :
  exists s',
    AidlError.AIDL_ERROR (AidlError.Filename "a/b/IFoo.aidl")
      ["syntax error"] Sample.process
    = AidlError.Returned tt s' /\
    Parser.error_ (AidlError.parser Sample.process) = 0%Z /\
    Parser.error_ (AidlError.parser s') = 0%Z /\
    Parser.error_ (AidlError.parser s')
    <> (Parser.error_ (AidlError.parser Sample.process) + 1)%Z.
Proof.
  eexists. split; [vm_compute; reflexivity |].
  repeat split. discriminate.
Qed.

(** * Further properties of the header's inline code *)

(** ** Argument directions *)

(** X1: the bit tests of [IsIn] and [IsOut] decode every value a
    [Direction] can hold, 0 to 3: the value is the sum of the bits the
    tests find, both tests hold exactly on [INOUT_DIR], neither holds
    exactly on 0 (the one value no enumerator names), and two values on
    which both tests agree are equal.  On an argument whose direction is
    one of the enumerators, [IsIn] and [IsOut] are these tests on the
    enumerator's value. *)
Theorem direction_is_decoded_by_bit_tests (d : Z) :
  DirectionValue.in_range d ->
  d = ((if DirectionValue.IsIn d
        then AidlArgument.Direction_value AidlArgument.IN_DIR else 0)
       + (if DirectionValue.IsOut d
          then AidlArgument.Direction_value AidlArgument.OUT_DIR else 0))%Z /\
  (DirectionValue.IsIn d = true /\ DirectionValue.IsOut d = true <->
   d = AidlArgument.Direction_value AidlArgument.INOUT_DIR) /\
  (DirectionValue.IsIn d = false /\ DirectionValue.IsOut d = false <->
   d = 0%Z) /\
  (forall d',
      DirectionValue.in_range d' ->
      DirectionValue.IsIn d = DirectionValue.IsIn d' ->
      DirectionValue.IsOut d = DirectionValue.IsOut d' ->
      d = d') /\
  (forall a,
      AidlArgument.Direction_value (AidlArgument.GetDirection a) = d ->
      AidlArgument.IsIn a = DirectionValue.IsIn d /\
      AidlArgument.IsOut a = DirectionValue.IsOut d).
Proof.
  unfold DirectionValue.in_range. intros Hd.
  assert (Hcases : d = 0%Z \/ d = 1%Z \/ d = 2%Z \/ d = 3%Z) by lia.
  split; [| split; [| split; [| split]]].
  - destruct Hcases as [-> | [-> | [-> | ->]]]; reflexivity.
  - destruct Hcases as [-> | [-> | [-> | ->]]]; vm_compute;
      split; try (intros [? ?]); try intros ?; try split;
      congruence.
  - destruct Hcases as [-> | [-> | [-> | ->]]]; vm_compute;
      split; try (intros [? ?]); try intros ?; try split;
      congruence.
  - intros d' Hd'.
    assert (Hcases' : d' = 0%Z \/ d' = 1%Z \/ d' = 2%Z \/ d' = 3%Z) by lia.
    destruct Hcases as [-> | [-> | [-> | ->]]];
      destruct Hcases' as [-> | [-> | [-> | ->]]]; vm_compute;
      congruence.
  - intros a <-. split; reflexivity.
Qed.

(** The value 0 is in neither direction. *)
Lemma direction_is_decoded_by_bit_tests_witness :
  DirectionValue.IsIn 0 = false /\ DirectionValue.IsOut 0 = false.
Proof.
  destruct (direction_is_decoded_by_bit_tests 0) as (_ & _ & [_ H] & _).
  - unfold DirectionValue.in_range. lia.
  - by apply H.
Defined.

(** ** Members *)

(** X2: a method answers non-null to [AsMethod] only, a constant
    declaration to [AsConstantDeclaration] only, and the answer is the
    object itself; an object of the base class [AidlMember] itself
    answers null to both.  So no member answers both downcasts, and a
    member answers one of them exactly when it is of a subclass. *)
Theorem member_downcasts_by_variant :
  (forall m,
      let x := AidlMember.Method m in
      AidlMember.AsMethod x = Some x /\
      AidlMember.AsConstantDeclaration x = None) /\
  (forall c,
      let x := AidlMember.ConstantDeclaration c in
      AidlMember.AsMethod x = None /\
      AidlMember.AsConstantDeclaration x = Some x) /\
  (forall node,
      let x := AidlMember.Member node in
      AidlMember.AsMethod x = None /\
      AidlMember.AsConstantDeclaration x = None) /\
  (forall x,
      ~ (is_Some (AidlMember.AsMethod x) /\
         is_Some (AidlMember.AsConstantDeclaration x))) /\
  (forall x,
      is_Some (AidlMember.AsMethod x) \/
      is_Some (AidlMember.AsConstantDeclaration x) <->
      AidlMember.dynamic_class x <> AidlMember.AidlMember_).
Proof.
  split; [by intros m |]. split; [by intros c |].
  split; [by intros node |]. split.
  - intros [node | m | c] [[? Hm] [? Hc]]; discriminate.
  - intros [node | m | c]; split.
    + intros [[? H] | [? H]]; discriminate.
    + intros H. by destruct H.
    + discriminate.
    + intros _. left. by eexists.
    + discriminate.
    + intros _. right. by eexists.
Qed.

(** ** Transaction ids *)

(** X3: [SetId] takes an [unsigned] and stores it in an [int]: [GetId]
    returns the id itself below 2^31 and the id less 2^32, a negative
    number, from there on; in both cases it is the id modulo 2^32.
    [SetId] does not mark the method as having an explicit id, leaves the
    arguments and both views alone, and a later call overrides an earlier
    one. *)
Theorem SetId_then_GetId (id : Z) (m : AidlMethod.t) :
  (0 <= id < 2 ^ 32)%Z ->
  ((id < 2 ^ 31)%Z -> AidlMethod.GetId (AidlMethod.SetId id m) = id) /\
  ((2 ^ 31 <= id)%Z ->
   AidlMethod.GetId (AidlMethod.SetId id m) = (id - 2 ^ 32)%Z /\
   (AidlMethod.GetId (AidlMethod.SetId id m) < 0)%Z) /\
  (- 2 ^ 31 <= AidlMethod.GetId (AidlMethod.SetId id m) < 2 ^ 31)%Z /\
  (AidlMethod.GetId (AidlMethod.SetId id m) mod 2 ^ 32 = id)%Z /\
  AidlMethod.HasId (AidlMethod.SetId id m) = AidlMethod.HasId m /\
  AidlMethod.GetArguments (AidlMethod.SetId id m)
  = AidlMethod.GetArguments m /\
  AidlMethod.GetInArguments (AidlMethod.SetId id m)
  = AidlMethod.GetInArguments m /\
  AidlMethod.GetOutArguments (AidlMethod.SetId id m)
  = AidlMethod.GetOutArguments m /\
  (forall id', AidlMethod.SetId id' (AidlMethod.SetId id m)
               = AidlMethod.SetId id' m).
Proof.
  intros Hid. unfold AidlMethod.GetId, AidlMethod.SetId. simpl.
  destruct (Z.ltb_spec id (2 ^ 31)) as [Hlt | Hge].
  - repeat split; try lia.
    rewrite Z.mod_small; lia.
  - repeat split; try lia.
    replace (id - 2 ^ 32)%Z with (id + (-1) * 2 ^ 32)%Z by lia.
    rewrite Z.mod_add by lia. rewrite Z.mod_small; lia.
Qed.

(** The largest [unsigned] reads back as -1. *)
Lemma SetId_then_GetId_witness :
  AidlMethod.GetId (AidlMethod.SetId 4294967295 Sample.f) = (-1)%Z /\
  AidlMethod.HasId (AidlMethod.SetId 4294967295 Sample.f) = false.
Proof.
  destruct (SetId_then_GetId 4294967295 Sample.f ltac:(lia))
    as (_ & Hwrap & _ & _ & Hhas & _).
  split; [| exact Hhas].
  destruct Hwrap as [-> _]; [lia | reflexivity].
Defined.

(** ** Names of type specifiers *)

(** X6: [GetName] is empty only for a specifier whose two names are both
    empty; in particular the name of a resolved specifier is never
    empty, and a specifier whose fully-qualified name was set to the empty
    string answers with the name as written. *)
Theorem GetName_empty_iff {params} (ts : AidlTypeSpecifier.t params) :
  (AidlTypeSpecifier.GetName ts = EmptyString <->
   AidlTypeSpecifier.fully_qualified_name_ ts = EmptyString /\
   AidlTypeSpecifier.unresolved_name_ ts = EmptyString) /\
  (AidlTypeSpecifier.IsResolved ts = true ->
   AidlTypeSpecifier.GetName ts <> EmptyString) /\
  (AidlTypeSpecifier.fully_qualified_name_ ts = EmptyString ->
   AidlTypeSpecifier.GetName ts = AidlTypeSpecifier.GetUnresolvedName ts).
Proof.
  unfold AidlTypeSpecifier.GetName, AidlTypeSpecifier.GetUnresolvedName.
  destruct (AidlTypeSpecifier.IsResolved ts) eqn:Hres.
  - apply IsResolved_true_iff in Hres.
    repeat split; try tauto; try congruence.
  - assert (Hfq : AidlTypeSpecifier.fully_qualified_name_ ts = EmptyString).
    { destruct (decide (AidlTypeSpecifier.fully_qualified_name_ ts
                        = EmptyString)) as [E | E]; [exact E |].
      apply IsResolved_true_iff in E. congruence. }
    repeat split; try tauto; try congruence.
Qed.

(** ** Annotations *)

(** X7: the rendering of an annotation is its name behind an at sign, so
    it is never empty, gives the name back once the sign is stripped, and
    is the same for two annotations only if they have the same name. *)
Theorem annotation_ToString_gives_back_name (a : AidlAnnotation.t) :
  AidlAnnotation.ToString a <> EmptyString /\
  AidlConstantValue.strip_prefix "@" (AidlAnnotation.ToString a)
  = Some (AidlAnnotation.GetName a) /\
  (forall b,
      AidlAnnotation.ToString a = AidlAnnotation.ToString b ->
      AidlAnnotation.GetName a = AidlAnnotation.GetName b).
Proof.
  unfold AidlAnnotation.ToString, AidlAnnotation.GetName.
  split; [discriminate |]. split; [reflexivity |].
  intros b H. by injection H.
Qed.

(** ** Qualified names *)

Lemma concat_two (sep first second : string) (rest : list string) :
  String.concat sep (first :: second :: rest)
  = first ++ sep ++ String.concat sep (second :: rest).
Proof. reflexivity. Qed.

(** X8: the dot-joined and the colon-joined renderings of a qualified
    name are the same text exactly when the name has at most one term: a
    name without terms renders as the empty string, a name of one term as
    that term, and from two terms on the renderings differ at the first
    separator. *)
Theorem dot_and_colon_names_agree_iff (q : AidlQualifiedName.t) :
  (AidlQualifiedName.GetDotName q = AidlQualifiedName.GetColonName q <->
   length (AidlQualifiedName.GetTerms q) <= 1) /\
  (AidlQualifiedName.GetTerms q = [] ->
   AidlQualifiedName.GetDotName q = EmptyString) /\
  (forall term,
      AidlQualifiedName.GetTerms q = [term] ->
      AidlQualifiedName.GetDotName q = term /\
      AidlQualifiedName.GetColonName q = term).
Proof.
  unfold AidlQualifiedName.GetDotName, AidlQualifiedName.GetColonName,
    AidlQualifiedName.GetTerms.
  destruct (AidlQualifiedName.terms_ q) as [| first [| second rest]].
  - repeat split; simpl; try lia; congruence.
  - repeat split; simpl; try lia; congruence.
  - split; [| split; [discriminate | intros term; discriminate]].
    rewrite !concat_two. split.
    + intros H. apply String.app_inj in H. discriminate H.
    + simpl. lia.
Qed.

(** ** Declaration names of defined types *)

Lemma step_dynamic_class (d d' : AidlDefinedType.t) :
  AidlDefinedType.step d d' ->
  AidlDefinedType.dynamic_class d' = AidlDefinedType.dynamic_class d.
Proof. intros [? [] | ? [] | ? ? [] | ? ? [] | ? ? []]; reflexivity. Qed.

Lemma steps_dynamic_class (d d' : AidlDefinedType.t) :
  AidlDefinedType.steps d d' ->
  AidlDefinedType.dynamic_class d' = AidlDefinedType.dynamic_class d.
Proof.
  induction 1 as [d | d1 d2 d3 H12 _ IH]; [reflexivity |].
  rewrite IH. by apply step_dynamic_class.
Qed.

(** X4: the preprocess declaration name tells the variant: it is
    [interface] exactly for the types that answer [AsInterface],
    [structured_parcelable] exactly for those that answer
    [AsStructuredParcelable], and [parcelable] exactly for those that
    answer [AsUnstructuredParcelable].  No operation on a defined type
    changes its declaration name or which downcasts it answers. *)
Theorem declaration_name_identifies_variant (d d' : AidlDefinedType.t) :
  AidlDefinedType.steps d d' ->
  (AidlDefinedType.GetPreprocessDeclarationName d = "interface" <->
   is_Some (AidlDefinedType.AsInterface d)) /\
  (AidlDefinedType.GetPreprocessDeclarationName d = "structured_parcelable"
   <-> is_Some (AidlDefinedType.AsStructuredParcelable d)) /\
  (AidlDefinedType.GetPreprocessDeclarationName d = "parcelable" <->
   is_Some (AidlDefinedType.AsUnstructuredParcelable d)) /\
  AidlDefinedType.GetPreprocessDeclarationName d'
  = AidlDefinedType.GetPreprocessDeclarationName d /\
  (is_Some (AidlDefinedType.AsInterface d') <->
   is_Some (AidlDefinedType.AsInterface d)) /\
  (is_Some (AidlDefinedType.AsParcelable d') <->
   is_Some (AidlDefinedType.AsParcelable d)) /\
  (is_Some (AidlDefinedType.AsStructuredParcelable d') <->
   is_Some (AidlDefinedType.AsStructuredParcelable d)) /\
  (is_Some (AidlDefinedType.AsUnstructuredParcelable d') <->
   is_Some (AidlDefinedType.AsUnstructuredParcelable d)).
Proof.
  intros Hclass%steps_dynamic_class.
  rewrite !is_Some_alt.
  destruct d, d'; try discriminate Hclass; simpl;
    repeat split; try tauto; try discriminate.
Qed.

Lemma declaration_name_identifies_variant_witness :
  AidlDefinedType.GetPreprocessDeclarationName
    (AidlDefinedType.alter_method 0 (AidlMethod.SetId 5) Sample.IFoo)
  = "interface".
Proof.
  destruct (declaration_name_identifies_variant Sample.IFoo
              (AidlDefinedType.alter_method 0 (AidlMethod.SetId 5)
                 Sample.IFoo))
    as (_ & _ & _ & -> & _); [| reflexivity].
  eapply AidlDefinedType.steps_step; [apply AidlDefinedType.step_method |].
  apply AidlDefinedType.steps_refl.
Defined.

(** ** Calls on a type specifier *)

Lemma typespec_apply_keeps {params} (ts : AidlTypeSpecifier.t params)
    (c : TypeSpecifierCalls.call) :
  AidlTypeSpecifier.unresolved_name_ (TypeSpecifierCalls.apply ts c)
  = AidlTypeSpecifier.unresolved_name_ ts /\
  AidlTypeSpecifier.fully_qualified_name_ (TypeSpecifierCalls.apply ts c)
  = AidlTypeSpecifier.fully_qualified_name_ ts /\
  AidlTypeSpecifier.is_array_ (TypeSpecifierCalls.apply ts c)
  = AidlTypeSpecifier.is_array_ ts /\
  AidlTypeSpecifier.type_params_ (TypeSpecifierCalls.apply ts c)
  = AidlTypeSpecifier.type_params_ ts /\
  AidlTypeSpecifier.comments_ (TypeSpecifierCalls.apply ts c)
  = AidlTypeSpecifier.comments_ ts.
Proof. by destruct c. Qed.

Lemma typespec_run_keeps {params} (calls : list TypeSpecifierCalls.call) :
  forall ts : AidlTypeSpecifier.t params,
    AidlTypeSpecifier.unresolved_name_ (TypeSpecifierCalls.run calls ts)
    = AidlTypeSpecifier.unresolved_name_ ts /\
    AidlTypeSpecifier.fully_qualified_name_ (TypeSpecifierCalls.run calls ts)
    = AidlTypeSpecifier.fully_qualified_name_ ts /\
    AidlTypeSpecifier.is_array_ (TypeSpecifierCalls.run calls ts)
    = AidlTypeSpecifier.is_array_ ts /\
    AidlTypeSpecifier.type_params_ (TypeSpecifierCalls.run calls ts)
    = AidlTypeSpecifier.type_params_ ts /\
    AidlTypeSpecifier.comments_ (TypeSpecifierCalls.run calls ts)
    = AidlTypeSpecifier.comments_ ts.
Proof.
  induction calls as [| c rest IH]; intros ts; [by repeat split |].
  change (TypeSpecifierCalls.run (c :: rest) ts)
    with (TypeSpecifierCalls.run rest (TypeSpecifierCalls.apply ts c)).
  destruct (IH (TypeSpecifierCalls.apply ts c)) as (-> & -> & -> & -> & ->).
  apply typespec_apply_keeps.
Qed.

Lemma typespec_run_annotations_keep_payload {params}
    (calls : list TypeSpecifierCalls.call) :
  forall ts : AidlTypeSpecifier.t params,
    forallb TypeSpecifierCalls.is_Annotate calls = true ->
    AidlTypeSpecifier.GetLanguageType (TypeSpecifierCalls.run calls ts)
    = AidlTypeSpecifier.GetLanguageType ts.
Proof.
  induction calls as [| c rest IH]; intros ts Hall; [reflexivity |].
  simpl in Hall. apply andb_true_iff in Hall as [Hc Hrest].
  change (TypeSpecifierCalls.run (c :: rest) ts)
    with (TypeSpecifierCalls.run rest (TypeSpecifierCalls.apply ts c)).
  rewrite IH by exact Hrest. by destruct c.
Qed.

(** X5: whatever annotations and backend payloads are attached to a type
    specifier, in any number and order, its name, resolution state,
    array flag, generic parameters and comments stay as they were; the
    payload read back is that of the last [SetLanguageType], and the
    original one when there was none. *)
Theorem attaching_keeps_the_specifier {params}
    (calls : list TypeSpecifierCalls.call)
    (ts : AidlTypeSpecifier.t params) :
  AidlTypeSpecifier.GetName (TypeSpecifierCalls.run calls ts)
  = AidlTypeSpecifier.GetName ts /\
  AidlTypeSpecifier.GetUnresolvedName (TypeSpecifierCalls.run calls ts)
  = AidlTypeSpecifier.GetUnresolvedName ts /\
  AidlTypeSpecifier.IsResolved (TypeSpecifierCalls.run calls ts)
  = AidlTypeSpecifier.IsResolved ts /\
  AidlTypeSpecifier.IsArray (TypeSpecifierCalls.run calls ts)
  = AidlTypeSpecifier.IsArray ts /\
  AidlTypeSpecifier.IsGeneric (TypeSpecifierCalls.run calls ts)
  = AidlTypeSpecifier.IsGeneric ts /\
  AidlTypeSpecifier.GetTypeParameters (TypeSpecifierCalls.run calls ts)
  = AidlTypeSpecifier.GetTypeParameters ts /\
  AidlTypeSpecifier.GetComments (TypeSpecifierCalls.run calls ts)
  = AidlTypeSpecifier.GetComments ts /\
  (forallb TypeSpecifierCalls.is_Annotate calls = true ->
   AidlTypeSpecifier.GetLanguageType (TypeSpecifierCalls.run calls ts)
   = AidlTypeSpecifier.GetLanguageType ts) /\
  (forall before language_type after,
      calls = (before ++ TypeSpecifierCalls.SetLanguageType language_type
                 :: after)%list ->
      forallb TypeSpecifierCalls.is_Annotate after = true ->
      AidlTypeSpecifier.GetLanguageType (TypeSpecifierCalls.run calls ts)
      = language_type).
Proof.
  destruct (typespec_run_keeps calls ts) as (Hu & Hf & Ha & Hp & Hc).
  unfold AidlTypeSpecifier.GetName, AidlTypeSpecifier.IsResolved,
    AidlTypeSpecifier.GetUnresolvedName, AidlTypeSpecifier.IsArray,
    AidlTypeSpecifier.IsGeneric, AidlTypeSpecifier.GetTypeParameters,
    AidlTypeSpecifier.GetComments.
  rewrite Hu, Hf, Ha, Hp, Hc.
  repeat (split; [reflexivity |]).
  split; [apply typespec_run_annotations_keep_payload |].
  intros before language_type after -> Hafter.
  unfold TypeSpecifierCalls.run. rewrite foldl_app. simpl.
  fold (TypeSpecifierCalls.run before ts).
  fold (TypeSpecifierCalls.run after
          (AidlTypeSpecifier.SetLanguageType language_type
             (TypeSpecifierCalls.run before ts))).
  by rewrite typespec_run_annotations_keep_payload.
Qed.

(** ** Adding defined types to a document *)

Lemma AddDefinedType_many (added : list (option nat)) :
  forall doc,
    AidlDocument.GetDefinedTypes
      (foldl (fun d x => AidlDocument.AddDefinedType x d) doc added)
    = (AidlDocument.GetDefinedTypes doc ++ added)%list.
Proof.
  induction added as [| x rest IH]; intros doc; simpl.
  - by rewrite app_nil_r.
  - rewrite IH. unfold AidlDocument.GetDefinedTypes. simpl.
    by rewrite <- app_assoc.
Qed.

Lemma lookup_snoc_Some {A} (l : list A) (x y : A) (i : nat) :
  (l ++ [x])%list !! i = Some y ->
  (i < length l /\ l !! i = Some y) \/ (i = length l /\ x = y).
Proof.
  intros H. destruct (decide (i < length l)) as [Hlt | Hge].
  - left. split; [exact Hlt |]. by rewrite lookup_app_l in H.
  - right. rewrite lookup_app_r in H by lia.
    destruct (i - length l) as [| k] eqn:Hk; simpl in H; [| discriminate].
    split; [lia | congruence].
Qed.

(** X9: [AddDefinedType] appends: the types a document lists are those it
    listed before followed by the added ones, in the order of the calls.
    It does not look at what the document holds: in a document where
    every held type has one owner, adding a type keeps that so exactly
    when the document does not hold the type yet, and adding a null
    pointer always keeps it. *)
Theorem AddDefinedType_appends_unchecked (doc : AidlDocument.t) (p : nat) :
  AidlDocument.unique_owners doc ->
  (forall added,
      AidlDocument.GetDefinedTypes
        (foldl (fun d x => AidlDocument.AddDefinedType x d) doc added)
      = (AidlDocument.GetDefinedTypes doc ++ added)%list) /\
  AidlDocument.unique_owners (AidlDocument.AddDefinedType None doc) /\
  (AidlDocument.unique_owners (AidlDocument.AddDefinedType (Some p) doc)
   <-> (Some p ∉ AidlDocument.GetDefinedTypes doc)).
Proof.
  intros Hunique. split; [intros; apply AddDefinedType_many |].
  unfold AidlDocument.unique_owners, AidlDocument.AddDefinedType,
    AidlDocument.GetDefinedTypes in *.
  simpl. split; [| split].
  - intros i j q Hi Hj.
    apply lookup_snoc_Some in Hi as [[_ Hi] | [_ Hi]]; [| discriminate].
    apply lookup_snoc_Some in Hj as [[_ Hj] | [_ Hj]]; [| discriminate].
    by apply (Hunique i j q).
  - intros Hnew Hin. apply list_elem_of_lookup in Hin as [i Hi].
    assert (Hlt : i < length (AidlDocument.defined_types_ doc))
      by (by eapply lookup_lt_Some).
    assert (i = length (AidlDocument.defined_types_ doc)); [| lia].
    apply (Hnew i _ p).
    + by rewrite lookup_app_l.
    + by rewrite list_lookup_middle.
  - intros Hfresh i j q Hi Hj.
    apply lookup_snoc_Some in Hi as [[_ Hi] | [-> Hi]];
      apply lookup_snoc_Some in Hj as [[_ Hj] | [-> Hj]].
    + by apply (Hunique i j q).
    + destruct Hfresh. apply list_elem_of_lookup. exists i. congruence.
    + destruct Hfresh. apply list_elem_of_lookup. exists j. congruence.
    + reflexivity.
Qed.

Lemma AddDefinedType_appends_unchecked_witness :
  AidlDocument.unique_owners
    (AidlDocument.AddDefinedType (Some 12%nat) Sample.document) /\
  ~ AidlDocument.unique_owners
      (AidlDocument.AddDefinedType (Some 10%nat) Sample.document).
Proof.
  split.
  - apply (AddDefinedType_appends_unchecked Sample.document 12%nat
             sample_document_unique_owners).
    intros Hin. by repeat (apply elem_of_cons in Hin as [Hin | Hin]);
      try discriminate; apply elem_of_nil in Hin.
  - intros Hdup.
    apply (AddDefinedType_appends_unchecked Sample.document 10%nat
             sample_document_unique_owners) in Hdup.
    apply Hdup. by left.
Defined.

(** ** Calls on an import *)

Lemma import_run_cons (c : ImportCalls.call) (rest : list ImportCalls.call)
    (i : AidlImport.t) :
  ImportCalls.run (c :: rest) i = ImportCalls.run rest (ImportCalls.apply i c).
Proof. reflexivity. Qed.

Lemma import_run_keeps (calls : list ImportCalls.call) :
  forall i,
    AidlImport.GetNeededClass (ImportCalls.run calls i)
    = AidlImport.GetNeededClass i /\
    (forallb (fun c => negb (ImportCalls.is_SetFilename c)) calls = true ->
     AidlImport.GetFilename (ImportCalls.run calls i)
     = AidlImport.GetFilename i) /\
    (forallb (fun c => negb (ImportCalls.is_SetAidlDocument c)) calls = true ->
     AidlImport.GetAidlDocument (ImportCalls.run calls i)
     = AidlImport.GetAidlDocument i).
Proof.
  induction calls as [| c rest IH]; intros i; [by repeat split |].
  rewrite import_run_cons.
  destruct (IH (ImportCalls.apply i c)) as (Hn & Hf & Hd).
  rewrite Hn. split; [by destruct c |].
  split; simpl; intros [Hc Hrest]%andb_true_iff.
  - rewrite Hf by exact Hrest. by destruct c.
  - rewrite Hd by exact Hrest. by destruct c.
Qed.

(** X10: over any sequence of [SetFilename] and [SetAidlDocument] calls
    an import keeps the class name it was created for; its file name is
    the one of the last [SetFilename] and its document the one of the last
    [SetAidlDocument], each untouched by the calls of the other kind; so
    an import without a document has none until one is attached. *)
Theorem import_setters_are_independent (calls : list ImportCalls.call)
    (i : AidlImport.t) :
  AidlImport.GetNeededClass (ImportCalls.run calls i)
  = AidlImport.GetNeededClass i /\
  (forall before filename after,
      calls = (before ++ ImportCalls.SetFilename filename :: after)%list ->
      forallb (fun c => negb (ImportCalls.is_SetFilename c)) after = true ->
      AidlImport.GetFilename (ImportCalls.run calls i) = filename) /\
  (forall before doc after,
      calls = (before ++ ImportCalls.SetAidlDocument doc :: after)%list ->
      forallb (fun c => negb (ImportCalls.is_SetAidlDocument c)) after = true ->
      AidlImport.GetAidlDocument (ImportCalls.run calls i) = doc) /\
  (forallb (fun c => negb (ImportCalls.is_SetAidlDocument c)) calls = true ->
   AidlImport.GetAidlDocument i = None ->
   AidlImport.GetAidlDocument (ImportCalls.run calls i) = None).
Proof.
  split; [apply import_run_keeps |]. split; [| split].
  - intros before filename after -> Hafter.
    unfold ImportCalls.run. rewrite foldl_app. simpl.
    fold (ImportCalls.run before i).
    fold (ImportCalls.run after
            (AidlImport.SetFilename filename (ImportCalls.run before i))).
    destruct (import_run_keeps after
                (AidlImport.SetFilename filename (ImportCalls.run before i)))
      as (_ & Hf & _).
    by rewrite Hf.
  - intros before doc after -> Hafter.
    unfold ImportCalls.run. rewrite foldl_app. simpl.
    fold (ImportCalls.run before i).
    fold (ImportCalls.run after
            (AidlImport.SetAidlDocument doc (ImportCalls.run before i))).
    destruct (import_run_keeps after
                (AidlImport.SetAidlDocument doc (ImportCalls.run before i)))
      as (_ & _ & Hd).
    by rewrite Hd.
  - intros Hnone Hdoc.
    destruct (import_run_keeps calls i) as (_ & _ & Hd).
    by rewrite Hd.
Qed.

(** ** The parser's document *)

(** X11: [ReleaseDocument] hands out the document the parser holds, the
    one last given to [SetDocument], and leaves the parser holding none,
    so that a second release answers null; the imports, the deferred
    specifiers, the error count and the file name are not touched. *)
Theorem ReleaseDocument_hands_out_once (p : Parser.t)
    (doc : option AidlDocument.t) :
  fst (Parser.ReleaseDocument p) = Parser.GetDocument p /\
  fst (Parser.ReleaseDocument (Parser.SetDocument doc p)) = doc /\
  Parser.GetDocument (snd (Parser.ReleaseDocument p)) = None /\
  fst (Parser.ReleaseDocument (snd (Parser.ReleaseDocument p))) = None /\
  Parser.GetImports (snd (Parser.ReleaseDocument p)) = Parser.GetImports p /\
  Parser.unresolved_typespecs_ (snd (Parser.ReleaseDocument p))
  = Parser.unresolved_typespecs_ p /\
  Parser.error_ (snd (Parser.ReleaseDocument p)) = Parser.error_ p /\
  Parser.FileName (snd (Parser.ReleaseDocument p)) = Parser.FileName p.
Proof. repeat split. Qed.

(** ** Sequences of calls on the parser *)

Lemma parser_apply_frame (moved_from : list AidlImport.t -> list AidlImport.t)
    (p p' : Parser.t) (c : ParserCalls.call) :
  ParserCalls.apply moved_from p c = Some p' ->
  Parser.unresolved_typespecs_ p'
  = (Parser.unresolved_typespecs_ p ++ ParserCalls.deferred [c])%list /\
  Parser.error_ p'
  = (Parser.error_ p + Z.of_nat (ParserCalls.errors [c]))%Z /\
  Parser.filename_ p' = Parser.filename_ p /\
  Parser.imports_ p'
  = (if ParserCalls.releases_imports [c] then [] else Parser.imports_ p).
Proof.
  destruct c; simpl; try (intros [= <-]; simpl;
    rewrite ?app_nil_r, ?Z.add_0_r; by repeat split).
  unfold Parser.AddError. case_match; [| discriminate].
  intros [= <-]. simpl. rewrite app_nil_r. by repeat split.
Qed.

(** X12: the members of the parser do not interfere.  Over any sequence
    of [AddError], [SetDocument], [SetPackage], [ReleaseDocument],
    [ReleaseImports] and [DeferResolution] calls that keeps the error
    count within [int], the deferred list is the one before followed by
    the deferred pointers in call order (twice when deferred twice), the
    error count has grown by the number of [AddError] calls, the file name
    is unchanged, and the import list is empty if [ReleaseImports] was
    called and unchanged if not. *)
Theorem parser_calls_accumulate
    (moved_from : list AidlImport.t -> list AidlImport.t)
    (calls : list ParserCalls.call) (p : Parser.t) :
  (Parser.error_ p + Z.of_nat (ParserCalls.errors calls)
   <= Parser.INT_MAX)%Z ->
  exists p',
    ParserCalls.run moved_from calls p = Some p' /\
    Parser.unresolved_typespecs_ p'
    = (Parser.unresolved_typespecs_ p ++ ParserCalls.deferred calls)%list /\
    Parser.error_ p'
    = (Parser.error_ p + Z.of_nat (ParserCalls.errors calls))%Z /\
    Parser.FileName p' = Parser.FileName p /\
    Parser.GetImports p'
    = (if ParserCalls.releases_imports calls then []
       else Parser.GetImports p).
Proof.
  unfold Parser.FileName, Parser.GetImports.
  revert p. induction calls as [| c rest IH]; intros p Hbound.
  - exists p. simpl. rewrite app_nil_r, Z.add_0_r. by repeat split.
  - assert (Hsplit : ParserCalls.errors (c :: rest)
                     = ParserCalls.errors [c] + ParserCalls.errors rest).
    { unfold ParserCalls.errors. simpl. by destruct c. }
    assert (Hdefer : ParserCalls.deferred (c :: rest)
                     = (ParserCalls.deferred [c]
                          ++ ParserCalls.deferred rest)%list).
    { unfold ParserCalls.deferred. simpl. by destruct c. }
    assert (Hfirst : exists p1, ParserCalls.apply moved_from p c = Some p1).
    { destruct c; simpl; eauto.
      unfold Parser.AddError.
      destruct (Z.ltb_spec (Parser.error_ p) Parser.INT_MAX); [eauto |].
      rewrite Hsplit in Hbound. unfold ParserCalls.errors in Hbound at 1.
      simpl in Hbound. lia. }
    destruct Hfirst as [p1 Hp1].
    destruct (parser_apply_frame _ _ _ _ Hp1) as (Hd1 & He1 & Hf1 & Hi1).
    destruct (IH p1) as (p' & Hrun & Hd & He & Hf & Hi).
    { rewrite He1. rewrite Hsplit in Hbound. lia. }
    exists p'. cbn [ParserCalls.run]. rewrite Hp1. split; [exact Hrun |].
    rewrite Hd, He, Hf, Hi, Hd1, He1, Hf1, Hi1, Hsplit, Hdefer.
    repeat split.
    + by rewrite <- app_assoc.
    + lia.
    + simpl. by destruct c, (ParserCalls.releases_imports rest).
Qed.

Lemma parser_calls_accumulate_witness :
  exists p',
    ParserCalls.run (fun imports => imports)
      [ParserCalls.DeferResolution 4; ParserCalls.AddError;
       ParserCalls.ReleaseImports; ParserCalls.DeferResolution 4;
       ParserCalls.AddError]
      Sample.parser = Some p' /\
    Parser.unresolved_typespecs_ p' = [1; 2; 3; 4; 4]%nat /\
    Parser.error_ p' = 2%Z /\
    Parser.GetImports p' = [].
Proof.
  destruct (parser_calls_accumulate (fun imports => imports)
              [ParserCalls.DeferResolution 4; ParserCalls.AddError;
               ParserCalls.ReleaseImports; ParserCalls.DeferResolution 4;
               ParserCalls.AddError]
              Sample.parser)
    as (p' & Hrun & Hd & He & _ & Hi).
  - vm_compute. discriminate.
  - exists p'. split; [exact Hrun |].
    split; [exact Hd |]. split; [exact He | exact Hi].
Defined.

(** ** Consecutive diagnostics *)

Lemma concat_lines (first : string) (rest : list string) :
  String.concat EmptyString (first :: rest)
  = first ++ String.concat EmptyString rest.
Proof.
  destruct rest as [| second rest]; simpl.
  - by rewrite append_nil_r.
  - reflexivity.
Qed.

(** X13: consecutive diagnostics on file names write their lines one
    after the other behind what the stream already holds, up to and
    including the first fatal one, which terminates the process: no later
    diagnostic writes anything.  Without a fatal one all of them write
    their line and the statements return.  The parser is never
    touched. *)
Theorem diagnostics_stop_at_first_fatal (ds : list Diagnostics.t)
    (s : AidlError.state) :
  Diagnostics.report_all ds s
  = (if existsb Diagnostics.fatal ds
     then AidlError.Aborted else AidlError.Returned tt)
      {| AidlError.os :=
           AidlError.os s
           ++ String.concat EmptyString
                (map Diagnostics.line (Diagnostics.until_fatal ds));
         AidlError.parser := AidlError.parser s |}.
Proof.
  revert s. induction ds as [| d rest IH]; intros s.
  - simpl. rewrite append_nil_r. by destruct s.
  - cbn [Diagnostics.report_all].
    cbv [mbind AidlError.bind]. rewrite report_run.
    cbn [existsb Diagnostics.until_fatal].
    destruct (Diagnostics.fatal d); cbn [orb map].
    + cbn [String.concat]. unfold Diagnostics.line.
      cbn [AidlError.context_prefix]. by rewrite !append_assoc.
    + rewrite IH. cbn [AidlError.os AidlError.parser].
      rewrite concat_lines. unfold Diagnostics.line at 2.
      cbn [AidlError.context_prefix]. by rewrite !append_assoc.
Qed.
